(** * RCLF simulation engine: a shallow embedding and its verified properties

    The development follows the current engine of the repository, the one
    with sedimenting crystals and the normalised 30-day window. The older
    [simulation.js] has the same [ChemistryEngine.calculateReaction] (its
    snapshot lacks the [savings] field and [OPEX_FIXED_DAY] is 1500) and the
    same [forEach]/[splice] pass in [PhysicsEngine.updateParticles]; it
    differs in [CONFIG.FINANCIAL], in [Particle.update], in the bounds of
    [isOutOfBounds], in the start size of [spawnParticle] and in
    [Simulation.updateUI], of which module [Legacy] keeps the older form.

    JavaScript numbers are read as exact rationals ([Q], compared with
    [==]); [Math.floor] is [Qfloor]; every call of [Math.random()] is an
    explicit argument; [Math.sin] is a parameter of the particle code.
    Rendering and the writes to the page are left out.

    The engine itself computes in binary64. Statements about magnitudes
    hold of it up to rounding; statements that turn on an exact value (a
    fixed point, a day boundary) are statements of the exact reading and say
    so. Module [Binary64] transcribes two expressions of
    [calculateReaction] over primitive floats, and the examples
    [binary64_ph_stalls] and [binary64_day_boundary] show the two places
    where the readings part. *)

From Stdlib Require Import PrimFloat.
From Stdlib Require Import String.
From Stdlib Require DecimalString.
From Stdlib Require Import ZArith QArith Qround Qabs Lqa Lia List Bool Sorted.
Import ListNotations.
Open Scope Q_scope.
Set Warnings "-inexact-float".

(** ** Constants and configuration *)

Module CONFIG.
Module STOICHIOMETRY.
Definition F_TO_CAF2 : Q := 78 / 38.
Definition F_TO_CACL2 : Q := 111 / 38.
End STOICHIOMETRY.
Module MARKET.
Definition PRICE_METALSPAR : Q := 3000.
Definition PRICE_ACIDSPAR : Q := 5500.
Definition COST_CACL2 : Q := 1100.
Definition AVOIDED_COST_LIME_SLUDGE : Q := 7237.5.
End MARKET.
Module FINANCIAL.
Definition CAPEX : Q := 15000000.
Definition OPEX_FIXED_DAY : Q := 4800.
End FINANCIAL.
Module PHYSICS.
Definition TARGET_PH : Q := 8.2.
Definition GRAVITY : Q := 0.5.
Definition DRAG_COEFFICIENT : Q := 0.1.
End PHYSICS.
End CONFIG.

(** ** ChemistryEngine *)

(** One daily snapshot [{ day, revenue, savings, cost }] of the history. *)
Record Snapshot : Type := mkSnapshot
  { day : Z; revenue : Q; savings : Q; cost : Q }.

Record ChemistryEngine : Type := mkChem
  { currentPH : Q;
    totalFInput : Q;
    totalFluoriteOutput : Q;
    totalCaCl2Used : Q;
    totalRevenue : Q;
    totalVariableCost : Q;
    totalFixedCost : Q;
    totalSavings : Q;
    simTimeMs : Q;
    history : list Snapshot;
    lastSnapshotDay : Z;
    purityMix : Q }.

(** The value returned by [calculateReaction]. *)
Record Masses : Type := mkMasses
  { massF : Q; massFluorite : Q; massCaCl2 : Q }.

Module Chem.

(** [constructor()] *)
Definition constructor : ChemistryEngine :=
  {| currentPH := 7.0;
     totalFInput := 0;
     totalFluoriteOutput := 0;
     totalCaCl2Used := 0;
     totalRevenue := 0;
     totalVariableCost := 0;
     totalFixedCost := 0;
     totalSavings := 0;
     simTimeMs := 0;
     history := [];
     lastSnapshotDay := (-1)%Z;
     purityMix := 0 |}.

(** [reset()] assigns every field, whatever the state was. *)
Definition reset (this : ChemistryEngine) : ChemistryEngine :=
  {| currentPH := 7.0;
     totalFInput := 0;
     totalFluoriteOutput := 0;
     totalCaCl2Used := 0;
     totalRevenue := 0;
     totalVariableCost := 0;
     totalFixedCost := 0;
     totalSavings := 0;
     simTimeMs := 0;
     history := [];
     lastSnapshotDay := (-1)%Z;
     purityMix := 0 |}.

(** The purity slider's callback: [this.chem.purityMix = v]. *)
Definition setPurityMix (this : ChemistryEngine) (v : Q) : ChemistryEngine :=
  {| currentPH := currentPH this;
     totalFInput := totalFInput this;
     totalFluoriteOutput := totalFluoriteOutput this;
     totalCaCl2Used := totalCaCl2Used this;
     totalRevenue := totalRevenue this;
     totalVariableCost := totalVariableCost this;
     totalFixedCost := totalFixedCost this;
     totalSavings := totalSavings this;
     simTimeMs := simTimeMs this;
     history := history this;
     lastSnapshotDay := lastSnapshotDay this;
     purityMix := v |}.

(** Milliseconds in a simulated day, [1000 * 24 * 3600]. *)
Definition msPerDay : Q := 1000 * 24 * 3600.

(** [history.push(snap); if (history.length > 40) history.shift()] *)
Definition pushSnapshot (h : list Snapshot) (snap : Snapshot) : list Snapshot :=
  let h' := h ++ [snap] in
  if (40 <? length h')%nat then tl h' else h'.

(** [calculateReaction(flowRate, ppmF, dt, speed)]; [random] is the value
    of the one [Math.random()] call of the body. The result is the
    engine after the call and the returned object. *)
Definition calculateReaction (this : ChemistryEngine)
    (flowRate ppmF dt speed : Q) (random : Q) : ChemistryEngine * Masses :=
  let effectiveDt := (dt / 1000) * speed in
  let timeMultiplier := 4 * 3600 in
  let massF := (flowRate * ppmF / 3600) * effectiveDt * timeMultiplier in
  let massFluorite := massF * CONFIG.STOICHIOMETRY.F_TO_CAF2 in
  let massCaCl2 := massF * CONFIG.STOICHIOMETRY.F_TO_CACL2 in
  let totalFInput' := totalFInput this + massF in
  let totalFluoriteOutput' := totalFluoriteOutput this + massFluorite in
  let totalCaCl2Used' := totalCaCl2Used this + massCaCl2 in
  let tonsFluorite := massFluorite / 1000000 in
  let tonsCaCl2 := massCaCl2 / 1000000 in
  let acidPercent := purityMix this / 100 in
  let metalPercent := 1 - acidPercent in
  let weightedPrice :=
    (acidPercent * CONFIG.MARKET.PRICE_ACIDSPAR)
    + (metalPercent * CONFIG.MARKET.PRICE_METALSPAR) in
  let totalRevenue' := totalRevenue this + tonsFluorite * weightedPrice in
  let totalVariableCost' :=
    totalVariableCost this + tonsCaCl2 * CONFIG.MARKET.COST_CACL2 in
  let tonsF := massF / 1000000 in
  let totalSavings' :=
    totalSavings this + tonsF * CONFIG.MARKET.AVOIDED_COST_LIME_SLUDGE in
  let simTimeMs' := simTimeMs this + effectiveDt * timeMultiplier * 1000 in
  let totalDays := simTimeMs' / msPerDay in
  let totalFixedCost' := totalDays * CONFIG.FINANCIAL.OPEX_FIXED_DAY in
  let currentDay := Qfloor (simTimeMs' / msPerDay) in
  let snap :=
    {| day := currentDay;
       revenue := totalRevenue';
       savings := totalSavings';
       cost := totalVariableCost' + totalFixedCost' |} in
  let appended := (lastSnapshotDay this <? currentDay)%Z in
  let history' :=
    if appended then pushSnapshot (history this) snap else history this in
  let lastSnapshotDay' :=
    if appended then currentDay else lastSnapshotDay this in
  let drift := (random - 0.5) * 0.02 in
  let currentPH' :=
    currentPH this
    + ((CONFIG.PHYSICS.TARGET_PH - currentPH this) * 0.1 + drift) in
  ({| currentPH := currentPH';
      totalFInput := totalFInput';
      totalFluoriteOutput := totalFluoriteOutput';
      totalCaCl2Used := totalCaCl2Used';
      totalRevenue := totalRevenue';
      totalVariableCost := totalVariableCost';
      totalFixedCost := totalFixedCost';
      totalSavings := totalSavings';
      simTimeMs := simTimeMs';
      history := history';
      lastSnapshotDay := lastSnapshotDay';
      purityMix := purityMix this |},
   {| massF := massF; massFluorite := massFluorite; massCaCl2 := massCaCl2 |}).

(** The engine after a call, and the object it returns. *)
Definition tick (this : ChemistryEngine) (flowRate ppmF dt speed random : Q)
  : ChemistryEngine := fst (calculateReaction this flowRate ppmF dt speed random).

Definition tickResult (this : ChemistryEngine) (flowRate ppmF dt speed random : Q)
  : Masses := snd (calculateReaction this flowRate ppmF dt speed random).

End Chem.


(** *** Runs of the engine *)

(** The arguments of one [calculateReaction] call, with the value its
    [Math.random()] returns. *)
Record Inputs : Type := mkInputs
  { flowRate : Q; ppmF : Q; dt : Q; speed : Q; random : Q }.

Definition tickWith (s : ChemistryEngine) (i : Inputs) : ChemistryEngine :=
  Chem.tick s (flowRate i) (ppmF i) (dt i) (speed i) (random i).

(** A sequence of calls, oldest first. *)
Definition run (s : ChemistryEngine) (calls : list Inputs) : ChemistryEngine :=
  fold_left tickWith calls s.

(** A call took a snapshot exactly when it moved [lastSnapshotDay]
    (lemma [tick_history_cases] below justifies the reading). *)
Definition snapshotTaken (before after : ChemistryEngine) : bool :=
  (lastSnapshotDay before <? lastSnapshotDay after)%Z.

(** The [day] of every snapshot appended along a run, in order of
    appending, evicted or not. *)
Fixpoint appendedDays (s : ChemistryEngine) (calls : list Inputs) : list Z :=
  match calls with
  | [] => []
  | i :: rest =>
      let s' := tickWith s i in
      if snapshotTaken s s'
      then lastSnapshotDay s' :: appendedDays s' rest
      else appendedDays s' rest
  end.

(** States the engine can be in: built, reset, ticked with any arguments,
    or with the purity slider moved inside its range of 0 to 100. *)
Inductive reachable : ChemistryEngine -> Prop :=
| reach_constructor : reachable Chem.constructor
| reach_reset s : reachable s -> reachable (Chem.reset s)
| reach_purity s v :
    reachable s -> 0 <= v -> v <= 100 -> reachable (Chem.setPurityMix s v)
| reach_tick s i : reachable s -> reachable (tickWith s i).

(** The declared ranges of the controls of one call. *)
Definition controlsInRange (i : Inputs) : Prop :=
  0 < flowRate i /\ 0 <= ppmF i /\ 0 <= dt i /\ 0 < speed i.

(** The six running totals, none smaller in [after] than in [before]. *)
Definition totalsLe (before after : ChemistryEngine) : Prop :=
  totalFInput before <= totalFInput after
  /\ totalFluoriteOutput before <= totalFluoriteOutput after
  /\ totalCaCl2Used before <= totalCaCl2Used after
  /\ totalRevenue before <= totalRevenue after
  /\ totalVariableCost before <= totalVariableCost after
  /\ totalSavings before <= totalSavings after.

(** The stoichiometric invariant of the mass totals. *)
Definition stoichiometric (s : ChemistryEngine) : Prop :=
  totalFluoriteOutput s == totalFInput s * (78 / 38)
  /\ totalCaCl2Used s == totalFInput s * (111 / 38).

(** Snapshots strictly increasing in [day]. *)
Definition dayLt (a b : Snapshot) : Prop := (day a < day b)%Z.

(** The history invariant carried through every call. *)
Definition historyInv (s : ChemistryEngine) : Prop :=
  (length (history s) <= 40)%nat
  /\ StronglySorted dayLt (history s)
  /\ Forall (fun h => (day h <= lastSnapshotDay s)%Z) (history s).

(** The pH relaxation with the perturbation switched off:
    [Math.random()] returning 0.5 makes [drift] zero. *)
Definition noDrift : Q := 0.5.

(** An engine whose pH sits on the target. *)
Definition atTarget : ChemistryEngine :=
  {| currentPH := 8.2;
     totalFInput := 0;
     totalFluoriteOutput := 0;
     totalCaCl2Used := 0;
     totalRevenue := 0;
     totalVariableCost := 0;
     totalFixedCost := 0;
     totalSavings := 0;
     simTimeMs := 0;
     history := [];
     lastSnapshotDay := (-1)%Z;
     purityMix := 0 |}.

(** [0.9 ^ n], the factor left of the distance to the target after [n]
    steps without drift. *)
Fixpoint relaxFactor (n : nat) : Q :=
  match n with
  | O => 1
  | S n' => 0.9 * relaxFactor n'
  end.

(** [Math.floor(this.simTimeMs / (1000 * 24 * 3600))] *)
Definition currentDay (s : ChemistryEngine) : Z :=
  Qfloor (simTimeMs s / Chem.msPerDay).

(** The object literal pushed to the history, read off the engine after
    the call. *)
Definition snapshotOf (s : ChemistryEngine) : Snapshot :=
  {| day := currentDay s;
     revenue := totalRevenue s;
     savings := totalSavings s;
     cost := totalVariableCost s + totalFixedCost s |}.

(** Just built, or just reset. *)
Definition fresh (s : ChemistryEngine) : Prop :=
  s = Chem.constructor \/ exists s0, s = Chem.reset s0.

(** ** Particle *)

Inductive ParticleType : Type := crystal | fluid.

Record Particle : Type := mkParticle
  { x : Q; y : Q; size : Q; type : ParticleType;
    vx : Q; vy : Q; alpha : Q; color : String.string; sedimenting : bool }.

(** [a < b] and [a <= b] on numbers, as booleans. *)
Definition Qltb (a b : Q) : bool := negb (Qle_bool b a).
Definition Qleb (a b : Q) : bool := Qle_bool a b.

Section ParticleCode.

(** [Math.sin], which the rationals do not have. *)
Variable Math_sin : Q -> Q.

(** [new Particle(x, y, size, type)]; [r1], [r2] are the two
    [Math.random()] values of the constructor. *)
Definition newParticle (x0 y0 size0 : Q) (type0 : ParticleType) (r1 r2 : Q)
  : Particle :=
  {| x := x0; y := y0; size := size0; type := type0;
     vx := (r1 - 0.5) * 1;
     vy := match type0 with crystal => r2 * 2 | fluid => (- r2) * 3 end;
     alpha := 1;
     color := match type0 with
              | crystal => "#00f2ff"%string
              | fluid => "#39ff14"%string
              end;
     sedimenting := false |}.

(** [update(dt, fluidVelocity, centerY)] *)
Definition update (this : Particle) (dt fluidVelocity centerY : Q) : Particle :=
  match type this with
  | crystal =>
      let size' :=
        if negb (sedimenting this) && Qltb (vy this) 0 && Qltb (size this) 6
        then size this + 0.015 else size this in
      let drag := (fluidVelocity * 0.12) * (1 / size') in
      let grav := 0.05 * size' in
      let sedimenting' :=
        if Qltb (y this) (centerY - 130) || Qleb 6 size'
        then true else sedimenting this in
      let vy' :=
        if sedimenting'
        then let v := vy this + grav * 1.5 in
             if Qltb v 1.5 then 1.5 else v
        else vy this + (grav - drag) in
      {| x := x this + vx this; y := y this + vy'; size := size';
         type := type this; vx := vx this; vy := vy'; alpha := alpha this;
         color := color this; sedimenting := sedimenting' |}
  | fluid =>
      let y' := y this - fluidVelocity * 2 in
      let x' := x this + Math_sin (y' * 0.05) * 2 in
      {| x := x'; y := y'; size := size this; type := type this;
         vx := vx this; vy := vy this; alpha := alpha this - 0.01;
         color := color this; sedimenting := sedimenting this |}
  end.

Definition isOutOfBounds (this : Particle) (centerY : Q) : bool :=
  Qltb (centerY + 220) (y this) || Qltb (y this) (centerY - 280).

Definition isDead (this : Particle) : bool := Qleb (alpha this) 0.

(** A particle's life: one [update] per frame, each with its own fluid
    velocity and bed centre. *)
Definition updates (this : Particle) (frames : list (Q * Q * Q)) : Particle :=
  fold_left (fun p '(d, v, c) => update p d v c) frames this.

(** The vertical speed the Sedimenting branch assigns. *)
Definition sedimentingVy (before after : Particle) : Prop :=
  let v := vy before + (0.05 * size after) * 1.5 in
  vy after == (if Qltb v 1.5 then 1.5 else v).

(** ** PhysicsEngine *)

(** [Array.prototype.forEach]: the length is read once, the index runs
    from 0 to that length, and an index the array no longer has is
    passed over. The callback may change the array. *)
Fixpoint forEachFrom {A : Type} (n k : nat)
    (callback : A -> nat -> list A -> list A) (arr : list A) : list A :=
  match n with
  | O => arr
  | S n' =>
      match nth_error arr k with
      | Some p => forEachFrom n' (S k) callback (callback p k arr)
      | None => forEachFrom n' (S k) callback arr
      end
  end.

Definition forEach {A : Type} (arr : list A)
    (callback : A -> nat -> list A -> list A) : list A :=
  forEachFrom (length arr) 0 callback arr.

(** [arr.splice(i, 1)] *)
Definition splice1 {A : Type} (i : nat) (arr : list A) : list A :=
  firstn i arr ++ skipn (S i) arr.

(** The object at index [i] mutated in place. *)
Fixpoint store {A : Type} (i : nat) (a : A) (arr : list A) : list A :=
  match arr, i with
  | [], _ => []
  | _ :: rest, O => a :: rest
  | b :: rest, S i' => b :: store i' a rest
  end.

(** The arrow function of [updateParticles]. *)
Definition visit (dt fluidVelocity centerY : Q)
    (p : Particle) (i : nat) (particles : list Particle) : list Particle :=
  let p' := update p dt fluidVelocity centerY in
  let particles' := store i p' particles in
  if isOutOfBounds p' centerY || isDead p'
  then splice1 i particles' else particles'.

(** [spawnParticle(centerX, centerY)]; [rnd n] is the value of the
    [n]-th [Math.random()] call from here on. *)
Definition spawnParticle (particles : list Particle) (centerX centerY : Q)
    (rnd : nat -> Q) : list Particle :=
  let x0 := centerX + (rnd 0%nat - 0.5) * 120 in
  let y0 := centerY + 180 in
  if Qltb 0.3 (rnd 1%nat)
  then particles ++ [newParticle x0 y0 1 crystal (rnd 2%nat) (rnd 3%nat)]
  else particles
       ++ [newParticle x0 y0 (1 + rnd 2%nat * 3) fluid (rnd 3%nat) (rnd 4%nat)].

(** The pass over the population, the first statement of
    [updateParticles]. *)
Definition updatePass (particles : list Particle)
    (dt speed flowRate centerY : Q) : list Particle :=
  let fluidVelocity := (flowRate / 100) * speed in
  forEach particles (visit dt fluidVelocity centerY).

(** [updateParticles(dt, speed, flowRate, centerX, centerY)] *)
Definition updateParticles (particles : list Particle)
    (dt speed flowRate centerX centerY : Q) (rnd : nat -> Q) : list Particle :=
  let particles' := updatePass particles dt speed flowRate centerY in
  if Qltb (rnd 0%nat) (0.3 * speed)
  then spawnParticle particles' centerX centerY (fun n => rnd (S n))
  else particles'.

(** What the pass is described to do: advance every particle once and
    keep those neither out of bounds nor dead. *)
Definition updatePassSpec (particles : list Particle)
    (dt speed flowRate centerY : Q) : list Particle :=
  let fluidVelocity := (flowRate / 100) * speed in
  filter (fun p => negb (isOutOfBounds p centerY || isDead p))
         (map (fun p => update p dt fluidVelocity centerY) particles).

(** What the pass does: the particle that follows a removed one is
    neither advanced nor checked. *)
Fixpoint sweep (dt fluidVelocity centerY : Q) (particles : list Particle)
  : list Particle :=
  match particles with
  | [] => []
  | p :: rest =>
      let p' := update p dt fluidVelocity centerY in
      if isOutOfBounds p' centerY || isDead p'
      then match rest with
           | [] => []
           | q :: rest' => q :: sweep dt fluidVelocity centerY rest'
           end
      else p' :: sweep dt fluidVelocity centerY rest
  end.

End ParticleCode.

(** ** Simulation.updateUI *)

(** Rational division is total and an index into a list always answers,
    so the two ways the report could go wrong are made explicit: reading a
    field of [undefined] and dividing by zero. *)
Inductive Fault : Type := TypeError | DivisionByZero.

Inductive Outcome (A : Type) : Type :=
| Done (a : A)
| Raised (f : Fault).
Arguments Done {A} a.
Arguments Raised {A} f.

Definition bind {A B : Type} (m : Outcome A) (k : A -> Outcome B) : Outcome B :=
  match m with
  | Done a => k a
  | Raised f => Raised f
  end.

Notation "'let*' v ':=' m 'in' k" := (bind m (fun v => k))
  (at level 10, v name, m at level 100, k at level 200).

(** [a / b] with a divisor read from the state. *)
Definition divide (a b : Q) : Outcome Q :=
  if Qeq_bool b 0 then Raised DivisionByZero else Done (a / b).

(** [arr[i]] of which a field is read next. *)
Definition element {A : Type} (arr : list A) (i : nat) : Outcome A :=
  match nth_error arr i with
  | Some a => Done a
  | None => Raised TypeError
  end.

(** [v || 0] on a number. *)
Definition orZero (v : Q) : Q := if Qeq_bool v 0 then 0 else v.

(** The two locals [rev30] and [pro30]. *)
Record Window : Type := mkWindow { rev30 : Q; pro30 : Q }.

(** [h.revenue - h.cost + h.savings] *)
Definition snapshotProfit (h : Snapshot) : Q := revenue h - cost h + savings h.

(** [history.find(h => h.day >= targetDay) || history[0]] *)
Definition referenceSnapshot (history : list Snapshot) (targetDay : Z)
  : Outcome Snapshot :=
  match find (fun h => (targetDay <=? day h)%Z) history with
  | Some h => Done h
  | None => element history 0
  end.

(** The [if ... else if ...] that assigns the two locals; [w] holds their
    values on entry. *)
Definition windowBlock (chem : ChemistryEngine) (netProfit totalDays : Q)
    (w : Window) : Outcome Window :=
  if (2 <? length (history chem))%nat then
    let* now := element (history chem) (length (history chem) - 1) in
    let targetDay := (day now - 30)%Z in
    let* prev := referenceSnapshot (history chem) targetDay in
    let windowDays := (day now - day prev)%Z in
    if (0 <? windowDays)%Z then
      let* k1 := divide 30 (inject_Z windowDays) in
      let* k2 := divide 30 (inject_Z windowDays) in
      Done {| rev30 := (revenue now - revenue prev) * k1;
              pro30 := (snapshotProfit now - snapshotProfit prev) * k2 |}
    else Done w
  else if Qltb 0.01 totalDays then
    let* r := divide (totalRevenue chem) totalDays in
    let* p := divide netProfit totalDays in
    Done {| rev30 := r * 30; pro30 := p * 30 |}
  else Done w.

(** The figures [updateUI] writes to the page. *)
Record Report : Type := mkReport
  { netProfit : Q; window : Window; roi : Q }.

(** [updateUI(results)], without the formatting and the writes to the
    page. *)
Definition updateUI (chem : ChemistryEngine) : Outcome Report :=
  let totalCost := totalVariableCost chem + orZero (totalFixedCost chem) in
  let netProfit := (totalRevenue chem - totalCost) + totalSavings chem in
  let totalDays := simTimeMs chem / Chem.msPerDay in
  let* w := windowBlock chem netProfit totalDays {| rev30 := 0; pro30 := 0 |} in
  let annualProfit := pro30 w * 12 in
  let roi := (annualProfit / CONFIG.FINANCIAL.CAPEX) * 100 in
  Done {| netProfit := netProfit; window := w; roi := roi |}.

(** A synthetic engine for the window: forty daily snapshots, days 0 to
    39, with 1000 of revenue, 400 of cost and 100 of savings per day. *)
Definition syntheticHistory : list Snapshot :=
  map (fun n => let d := Z.of_nat n in
                {| day := d; revenue := inject_Z (1000 * d);
                   savings := inject_Z (100 * d); cost := inject_Z (400 * d) |})
      (seq 0 40).

Definition syntheticEngine : ChemistryEngine :=
  {| currentPH := 8.2;
     totalFInput := 0;
     totalFluoriteOutput := 0;
     totalCaCl2Used := 0;
     totalRevenue := 39000;
     totalVariableCost := 15600;
     totalFixedCost := 0;
     totalSavings := 3900;
     simTimeMs := 39 * Chem.msPerDay;
     history := syntheticHistory;
     lastSnapshotDay := 39;
     purityMix := 0 |}.

(** The annualisation factor of the description, 365 over the window's
    30 days. *)
Definition describedRoi (pro30 : Q) : Q :=
  (pro30 * (365 / 30)) / CONFIG.FINANCIAL.CAPEX * 100.

(** *** The older [simulation.js] *)

Module Legacy.

Definition CAPEX : Q := 1000000.
Definition OPEX_FIXED_DAY : Q := 1500.

(** Its [updateUI]: the return on investment is taken from the all-time
    net profit, the window is the plain difference of two snapshots. *)
Definition updateUI (chem : ChemistryEngine) : Outcome Report :=
  let monthlyRevenue := totalRevenue chem in
  let monthlyVarCost := totalVariableCost chem in
  let totalCost := monthlyVarCost + orZero (totalFixedCost chem) in
  let netProfit := (monthlyRevenue - totalCost) + totalSavings chem in
  let roi := (netProfit / CAPEX) * 100 in
  let* w :=
    if (1 <? length (history chem))%nat then
      let* now := element (history chem) (length (history chem) - 1) in
      let targetDay := (day now - 30)%Z in
      let* prev := referenceSnapshot (history chem) targetDay in
      Done {| rev30 := revenue now - revenue prev;
              pro30 := (revenue now - cost now) - (revenue prev - cost prev) |}
    else Done {| rev30 := monthlyRevenue; pro30 := netProfit |} in
  Done {| netProfit := netProfit; window := w; roi := roi |}.

End Legacy.

(** ** Two expressions of [calculateReaction] in binary64 *)

Module Binary64.

(** [currentPH + ((TARGET_PH - currentPH) * 0.1 + drift)] with
    [drift = (0.5 - 0.5) * 0.02], the perturbation at zero. *)
Definition phStep (currentPH : float) : float :=
  PrimFloat.add currentPH
    (PrimFloat.add
       (PrimFloat.mul (PrimFloat.sub 8.2%float currentPH) 0.1%float)
       (PrimFloat.mul (PrimFloat.sub 0.5%float 0.5%float) 0.02%float)).

(** [simTimeMs + effectiveDt * timeMultiplier * 1000] with
    [effectiveDt = (dt / 1000) * speed] and [timeMultiplier = 4 * 3600]. *)
Definition advance (simTimeMs dt speed : float) : float :=
  PrimFloat.add simTimeMs
    (PrimFloat.mul
       (PrimFloat.mul (PrimFloat.mul (PrimFloat.div dt 1000%float) speed)
                      (PrimFloat.mul 4%float 3600%float))
       1000%float).

(** [1000 * 24 * 3600] *)
Definition msPerDay : float :=
  PrimFloat.mul (PrimFloat.mul 1000%float 24%float) 3600%float.

(** [n] steps of the pH without perturbation. *)
Fixpoint phSteps (n : nat) (currentPH : float) : float :=
  match n with
  | O => currentPH
  | S n' => phSteps n' (phStep currentPH)
  end.

End Binary64.

(** ** More of [updateUI]: the efficiency figure and the clock *)

(** [Math.max(0, 99.8 - Math.abs(currentPH - 8.2) * 15)] *)
Definition efficiency (chem : ChemistryEngine) : Q :=
  let phError := Qabs (currentPH chem - 8.2) in
  let e := 99.8 - phError * 15 in
  if Qleb e 0 then 0 else e.

(** A number cut to its integer part, and the remainder [a % b] of two
    numbers, which takes the sign of [a]. *)
Definition Qtrunc (q : Q) : Z := if Qleb 0 q then Qfloor q else Qceiling q.

Definition jsRem (a b : Q) : Q := a - b * inject_Z (Qtrunc (a / b)).

(** An integer inside a template literal. *)
Definition showNumber (z : Z) : string :=
  DecimalString.NilZero.string_of_int (Z.to_int z).

(** The string written to [simTime]. *)
Definition timeStr (chem : ChemistryEngine) : string :=
  let totalSeconds := simTimeMs chem / 1000 in
  let days := Qfloor (totalSeconds / (24 * 3600)) in
  let months := (days / 30)%Z in
  let remainingDays := Z.rem days 30 in
  let str := if (0 <? months)%Z then (showNumber months ++ "m ")%string
             else ""%string in
  let str := (str ++ showNumber remainingDays ++ "d")%string in
  if (months =? 0)%Z && (remainingDays =? 0)%Z then
    let hours := Qfloor (jsRem (totalSeconds / 3600) 24) in
    (showNumber hours ++ "h")%string
  else str.

(** Whole simulated hours since the start. *)
Definition wholeHours (chem : ChemistryEngine) : Z :=
  Qfloor (simTimeMs chem / 3600000).

(** ** Runs with controls in range *)

(** A value [Math.random()] can return. *)
Definition unitInterval (r : Q) : Prop := 0 <= r /\ r < 1.

(** States reached with every call inside the declared ranges and the
    purity slider inside its own. *)
Inductive operated : ChemistryEngine -> Prop :=
| operated_constructor : operated Chem.constructor
| operated_reset s : operated s -> operated (Chem.reset s)
| operated_purity s v :
    operated s -> 0 <= v -> v <= 100 -> operated (Chem.setPurityMix s v)
| operated_tick s i : operated s -> controlsInRange i -> operated (tickWith s i).

(** Real milliseconds scaled by the speed, summed over a run. *)
Fixpoint scaledTime (calls : list Inputs) : Q :=
  match calls with
  | [] => 0
  | i :: rest => dt i * speed i + scaledTime rest
  end.

(** The last element of a list, if any. *)
Definition lastSnapshot (h : list Snapshot) : option Snapshot :=
  nth_error h (length h - 1).

(** The link between the history and [lastSnapshotDay]. *)
Definition latestLinked (s : ChemistryEngine) : Prop :=
  ((history s = [] /\ lastSnapshotDay s = (-1)%Z)
   \/ (exists h, lastSnapshot (history s) = Some h
                 /\ day h = lastSnapshotDay s
                 /\ (0 <= lastSnapshotDay s)%Z))
  /\ Forall (fun h => (0 <= day h)%Z) (history s).

(** ** The older particle code of [simulation.js] *)

Module LegacyPhysics.

Section Code.

Variable Math_sin : Q -> Q.

(** [update(dt, fluidVelocity)] *)
Definition update (this : Particle) (dt fluidVelocity : Q) : Particle :=
  match type this with
  | crystal =>
      let drag := fluidVelocity * CONFIG.PHYSICS.DRAG_COEFFICIENT in
      let vy' := vy this + (CONFIG.PHYSICS.GRAVITY - drag) in
      {| x := x this + vx this; y := y this + vy'; size := size this;
         type := type this; vx := vx this; vy := vy'; alpha := alpha this;
         color := color this; sedimenting := sedimenting this |}
  | fluid =>
      let y' := y this - fluidVelocity * 2 in
      let x' := x this + Math_sin (y' * 0.05) * 2 in
      {| x := x'; y := y'; size := size this; type := type this;
         vx := vx this; vy := vy this; alpha := alpha this - 0.01;
         color := color this; sedimenting := sedimenting this |}
  end.

Definition isOutOfBounds (this : Particle) (centerY : Q) : bool :=
  Qltb (centerY + 200) (y this) || Qltb (y this) (centerY - 250).


End Code.

End LegacyPhysics.

(** ** Simulation: controls and the frame loop *)

Module Sim.

(** [this.state] *)
Record Controls : Type := mkControls
  { running : bool; speed : Q; flowRate : Q; ppmF : Q }.

(** The engine, the particle population, the controls and the time of
    the last frame. *)
Record Simulation : Type := mkSimulation
  { chem : ChemistryEngine;
    particles : list Particle;
    state : Controls;
    lastTime : Q }.

(** [new Simulation()]; [now] is [performance.now()] in [init]. *)
Definition constructor (now : Q) : Simulation :=
  {| chem := Chem.constructor;
     particles := [];
     state := {| running := false; speed := 1.0; flowRate := 450; ppmF := 50 |};
     lastTime := now |}.

(** The click handler of [toggleSystem]. *)
Definition toggle (this : Simulation) : Simulation :=
  {| chem := chem this;
     particles := particles this;
     state := {| running := negb (running (state this));
                 speed := speed (state this);
                 flowRate := flowRate (state this);
                 ppmF := ppmF (state this) |};
     lastTime := lastTime this |}.

(** [reset()] *)
Definition reset (this : Simulation) : Simulation :=
  {| chem := Chem.reset (chem this);
     particles := [];
     state := {| running := false;
                 speed := speed (state this);
                 flowRate := flowRate (state this);
                 ppmF := ppmF (state this) |};
     lastTime := lastTime this |}.

Section Loop.

Variable Math_sin : Q -> Q.

(** One animation frame: the time of the frame, the canvas size read in
    it and the values [Math.random()] returns during it. *)
Record Frame : Type := mkFrame
  { time : Q; width : Q; height : Q; rnd : nat -> Q }.

(** [loop(time)], without the drawing and the request for the next
    frame; the second component is what [updateUI] reports, when it is
    called. *)
Definition loop (this : Simulation) (fr : Frame)
  : Simulation * option (Outcome Report) :=
  let dt := time fr - lastTime this in
  let centerX := width fr / 2 in
  let centerY := height fr / 2 in
  if running (state this) then
    let '(chem', results) :=
      Chem.calculateReaction (chem this) (flowRate (state this))
        (ppmF (state this)) dt (speed (state this)) (rnd fr 0%nat) in
    let particles' :=
      updateParticles Math_sin (particles this) dt (speed (state this))
        (flowRate (state this)) centerX centerY (fun n => rnd fr (S n)) in
    ({| chem := chem'; particles := particles'; state := state this;
        lastTime := time fr |},
     Some (updateUI chem'))
  else
    ({| chem := chem this; particles := particles this; state := state this;
        lastTime := time fr |},
     None).

(** Consecutive frames. *)
Definition loops (this : Simulation) (frames : list Frame) : Simulation :=
  fold_left (fun sim fr => fst (loop sim fr)) frames this.

End Loop.

End Sim.

(** * Properties *)

(** ** Equations of [calculateReaction] *)

Section TickEquations.

Variables (s : ChemistryEngine) (f p d sp r : Q).

Let s' := Chem.tick s f p d sp r.
Let m := Chem.tickResult s f p d sp r.

Lemma massF_eq :
  massF m = (f * p / 3600) * ((d / 1000) * sp) * (4 * 3600).
Proof. reflexivity. Qed.

Lemma massFluorite_eq : massFluorite m = massF m * CONFIG.STOICHIOMETRY.F_TO_CAF2.
Proof. reflexivity. Qed.

Lemma massCaCl2_eq : massCaCl2 m = massF m * CONFIG.STOICHIOMETRY.F_TO_CACL2.
Proof. reflexivity. Qed.

Lemma totalFInput_eq : totalFInput s' = totalFInput s + massF m.
Proof. reflexivity. Qed.

Lemma totalFluoriteOutput_eq :
  totalFluoriteOutput s' = totalFluoriteOutput s + massFluorite m.
Proof. reflexivity. Qed.

Lemma totalCaCl2Used_eq : totalCaCl2Used s' = totalCaCl2Used s + massCaCl2 m.
Proof. reflexivity. Qed.

Lemma totalRevenue_eq :
  totalRevenue s' =
  totalRevenue s
  + massFluorite m / 1000000
    * (purityMix s / 100 * CONFIG.MARKET.PRICE_ACIDSPAR
       + (1 - purityMix s / 100) * CONFIG.MARKET.PRICE_METALSPAR).
Proof. reflexivity. Qed.

Lemma totalVariableCost_eq :
  totalVariableCost s' =
  totalVariableCost s + massCaCl2 m / 1000000 * CONFIG.MARKET.COST_CACL2.
Proof. reflexivity. Qed.

Lemma totalSavings_eq :
  totalSavings s' =
  totalSavings s + massF m / 1000000 * CONFIG.MARKET.AVOIDED_COST_LIME_SLUDGE.
Proof. reflexivity. Qed.

Lemma simTimeMs_eq :
  simTimeMs s' = simTimeMs s + (d / 1000) * sp * (4 * 3600) * 1000.
Proof. reflexivity. Qed.

Lemma totalFixedCost_eq :
  totalFixedCost s' = simTimeMs s' / Chem.msPerDay * CONFIG.FINANCIAL.OPEX_FIXED_DAY.
Proof. reflexivity. Qed.

Lemma purityMix_eq : purityMix s' = purityMix s.
Proof. reflexivity. Qed.

Lemma currentPH_eq :
  currentPH s' =
  currentPH s + ((CONFIG.PHYSICS.TARGET_PH - currentPH s) * 0.1 + (r - 0.5) * 0.02).
Proof. reflexivity. Qed.

End TickEquations.

(** C2. With [flowRate = 450] and [ppmF = 50], one call returns
    [massF = (450 * 50 / 3600) * ((dt / 1000) * speed) * (4 * 3600)],
    [massFluorite = massF * 78 / 38] and [massCaCl2 = massF * 111 / 38],
    whatever the engine's state; in closed form the three masses are
    [90 * dt * speed], [3510/19 * dt * speed] and [4995/19 * dt * speed]. *)
Theorem golden_masses (s : ChemistryEngine) (dt speed rnd : Q) :
  let m := Chem.tickResult s 450 50 dt speed rnd in
  (massF m == (450 * 50 / 3600) * ((dt / 1000) * speed) * (4 * 3600)
   /\ massFluorite m == massF m * 78 / 38
   /\ massCaCl2 m == massF m * 111 / 38)
  /\ (massF m == 90 * dt * speed
      /\ massFluorite m == (3510 # 19) * dt * speed
      /\ massCaCl2 m == (4995 # 19) * dt * speed).
Proof.
  intro m. subst m.
  rewrite massFluorite_eq, massCaCl2_eq, massF_eq.
  unfold CONFIG.STOICHIOMETRY.F_TO_CAF2, CONFIG.STOICHIOMETRY.F_TO_CACL2.
  repeat split; field.
Qed.

Example golden_one_second :
  let m := Chem.tickResult Chem.constructor 450 50 1000 1 0.5 in
  massF m == 90000 /\ massFluorite m == 3510000 # 19 /\ massCaCl2 m == 4995000 # 19.
Proof. vm_compute. repeat split. Qed.

(** ** The stoichiometric invariant *)

Lemma stoichiometric_constructor : stoichiometric Chem.constructor.
Proof. split; vm_compute; reflexivity. Qed.

Lemma stoichiometric_tick (s : ChemistryEngine) (f p d sp r : Q) :
  stoichiometric s -> stoichiometric (Chem.tick s f p d sp r).
Proof.
  intros [Hout Hused]. split.
  - rewrite totalFluoriteOutput_eq, totalFInput_eq, massFluorite_eq, Hout.
    unfold CONFIG.STOICHIOMETRY.F_TO_CAF2. ring.
  - rewrite totalCaCl2Used_eq, totalFInput_eq, massCaCl2_eq, Hused.
    unfold CONFIG.STOICHIOMETRY.F_TO_CACL2. ring.
Qed.

Lemma stoichiometric_reachable (s : ChemistryEngine) :
  reachable s -> stoichiometric s.
Proof.
  induction 1 as [ | s _ _ | s v _ IH _ _ | s i _ IH ].
  - exact stoichiometric_constructor.
  - exact stoichiometric_constructor.
  - exact IH.
  - now apply stoichiometric_tick.
Qed.

(** C3. [totalFluoriteOutput = totalFInput * (78/38)] and
    [totalCaCl2Used = totalFInput * (111/38)] hold in the initial state,
    after [reset()] from any state, and after a [calculateReaction] call
    with any arguments from a state where they hold; the two ratios are the
    constants 78/38 and 111/38 of [CONFIG], which no operation takes or
    returns. *)
Theorem stoichiometric_invariant :
  stoichiometric Chem.constructor
  /\ (forall s, stoichiometric (Chem.reset s))
  /\ (forall s f p d sp r,
        stoichiometric s -> stoichiometric (Chem.tick s f p d sp r))
  /\ (CONFIG.STOICHIOMETRY.F_TO_CAF2 == 78 / 38
      /\ CONFIG.STOICHIOMETRY.F_TO_CACL2 == 111 / 38).
Proof.
  split; [ exact stoichiometric_constructor | ].
  split; [ intro s; exact stoichiometric_constructor | ].
  split; [ exact stoichiometric_tick | ].
  split; reflexivity.
Qed.

Lemma stoichiometric_invariant_witness :
  stoichiometric (Chem.tick (Chem.reset Chem.constructor) 450 50 16 1 (3 # 10)).
Proof.
  apply (proj1 (proj2 (proj2 stoichiometric_invariant))).
  apply (proj1 (proj2 stoichiometric_invariant)).
Defined.

(** ** Monotone totals *)

Lemma Qle_add_nonneg (a e : Q) : 0 <= e -> a <= a + e.
Proof. intro. lra. Qed.

(** Products and quotients of non-negative numbers and constants. *)
Ltac nonneg :=
  repeat first
    [ assumption
    | apply Qmult_le_0_compat
    | apply Qinv_le_0_compat
    | progress unfold Qdiv
    | solve [ vm_compute; discriminate ] ].

Lemma reachable_purityMix (s : ChemistryEngine) :
  reachable s -> 0 <= purityMix s /\ purityMix s <= 100.
Proof.
  induction 1 as [ | s _ _ | s v _ _ Hlo Hhi | s i _ IH ].
  - split; vm_compute; discriminate.
  - split; vm_compute; discriminate.
  - split; assumption.
  - exact IH.
Qed.

Lemma massF_nonneg (s : ChemistryEngine) (f p d sp r : Q) :
  0 < f -> 0 <= p -> 0 <= d -> 0 < sp ->
  0 <= massF (Chem.tickResult s f p d sp r).
Proof.
  intros Hf Hp Hd Hsp. rewrite massF_eq.
  assert (E : (f * p / 3600) * ((d / 1000) * sp) * (4 * 3600)
              == (f * p) * (d * sp) * (4 # 1000)) by field.
  rewrite E.
  assert (0 <= f * p) by (apply Qmult_le_0_compat; lra).
  assert (0 <= d * sp) by (apply Qmult_le_0_compat; lra).
  assert (0 <= (f * p) * (d * sp)) by (apply Qmult_le_0_compat; lra).
  lra.
Qed.

(** The blended price is at least the metalspar price when the purity mix
    is a percentage. *)
Lemma weightedPrice_nonneg (mix : Q) :
  0 <= mix -> mix <= 100 ->
  0 <= mix / 100 * CONFIG.MARKET.PRICE_ACIDSPAR
       + (1 - mix / 100) * CONFIG.MARKET.PRICE_METALSPAR.
Proof.
  intros Hlo Hhi.
  unfold CONFIG.MARKET.PRICE_ACIDSPAR, CONFIG.MARKET.PRICE_METALSPAR.
  assert (E : mix / 100 * 5500 + (1 - mix / 100) * 3000 == 3000 + 25 * mix)
    by field.
  rewrite E. lra.
Qed.

Lemma totals_step (s : ChemistryEngine) (f p d sp r : Q) :
  0 <= purityMix s -> purityMix s <= 100 ->
  0 < f -> 0 <= p -> 0 <= d -> 0 < sp ->
  let s' := Chem.tick s f p d sp r in
  totalFInput s <= totalFInput s'
  /\ totalFluoriteOutput s <= totalFluoriteOutput s'
  /\ totalCaCl2Used s <= totalCaCl2Used s'
  /\ totalRevenue s <= totalRevenue s'
  /\ totalVariableCost s <= totalVariableCost s'
  /\ totalSavings s <= totalSavings s'.
Proof.
  intros Hlo Hhi Hf Hp Hd Hsp s'. subst s'.
  pose proof (massF_nonneg s f p d sp r Hf Hp Hd Hsp) as Hm.
  pose proof (weightedPrice_nonneg (purityMix s) Hlo Hhi) as Hw.
  rewrite totalFInput_eq, totalFluoriteOutput_eq, totalCaCl2Used_eq,
    totalRevenue_eq, totalVariableCost_eq, totalSavings_eq,
    massFluorite_eq, massCaCl2_eq.
  set (m := massF (Chem.tickResult s f p d sp r)) in *.
  set (w := purityMix s / 100 * CONFIG.MARKET.PRICE_ACIDSPAR
            + (1 - purityMix s / 100) * CONFIG.MARKET.PRICE_METALSPAR) in *.
  unfold CONFIG.STOICHIOMETRY.F_TO_CAF2, CONFIG.STOICHIOMETRY.F_TO_CACL2,
    CONFIG.MARKET.COST_CACL2, CONFIG.MARKET.AVOIDED_COST_LIME_SLUDGE.
  clearbody m w.
  repeat split; apply Qle_add_nonneg; nonneg.
Qed.

(** C6. In any state the engine can reach, a [calculateReaction] call
    with [flowRate > 0], [ppmF >= 0], [dt >= 0] and [speed > 0] leaves each
    of the six running totals at least as large as it was. *)
Theorem totals_non_decreasing (s : ChemistryEngine) (i : Inputs) :
  reachable s ->
  0 < flowRate i -> 0 <= ppmF i -> 0 <= dt i -> 0 < speed i ->
  let s' := tickWith s i in
  totalFInput s <= totalFInput s'
  /\ totalFluoriteOutput s <= totalFluoriteOutput s'
  /\ totalCaCl2Used s <= totalCaCl2Used s'
  /\ totalRevenue s <= totalRevenue s'
  /\ totalVariableCost s <= totalVariableCost s'
  /\ totalSavings s <= totalSavings s'.
Proof.
  intros Hs Hf Hp Hd Hsp.
  destruct (reachable_purityMix s Hs) as [Hlo Hhi].
  exact (totals_step s _ _ _ _ (random i) Hlo Hhi Hf Hp Hd Hsp).
Qed.

Lemma totals_non_decreasing_witness :
  let s := tickWith (Chem.setPurityMix Chem.constructor 40)
                    (mkInputs 450 50 16 1 (1 # 4)) in
  let s' := tickWith s (mkInputs 300 20 17 2 (3 # 4)) in
  totalFInput s <= totalFInput s'
  /\ totalFluoriteOutput s <= totalFluoriteOutput s'
  /\ totalCaCl2Used s <= totalCaCl2Used s'
  /\ totalRevenue s <= totalRevenue s'
  /\ totalVariableCost s <= totalVariableCost s'
  /\ totalSavings s <= totalSavings s'.
Proof.
  apply (totals_non_decreasing
           (tickWith (Chem.setPurityMix Chem.constructor 40)
                     (mkInputs 450 50 16 1 (1 # 4)))
           (mkInputs 300 20 17 2 (3 # 4))).
  - apply reach_tick. apply reach_purity.
    + apply reach_constructor.
    + vm_compute; discriminate.
    + vm_compute; discriminate.
  - reflexivity.
  - vm_compute; discriminate.
  - vm_compute; discriminate.
  - reflexivity.
Defined.

Lemma totalsLe_refl (s : ChemistryEngine) : totalsLe s s.
Proof. unfold totalsLe. repeat split; apply Qle_refl. Qed.

Lemma totalsLe_trans (a b c : ChemistryEngine) :
  totalsLe a b -> totalsLe b c -> totalsLe a c.
Proof.
  unfold totalsLe.
  intros (H1 & H2 & H3 & H4 & H5 & H6) (K1 & K2 & K3 & K4 & K5 & K6).
  repeat split; eapply Qle_trans; eassumption.
Qed.

(** Along a whole run of calls in range the totals never go down. *)
Lemma totals_along_run (calls : list Inputs) (s : ChemistryEngine) :
  reachable s -> Forall controlsInRange calls -> totalsLe s (run s calls).
Proof.
  intros Hs Hcalls. revert s Hs.
  induction Hcalls as [ | i calls (Hf & Hp & Hd & Hsp) _ IH ]; intros s Hs.
  - apply totalsLe_refl.
  - apply totalsLe_trans with (tickWith s i).
    + destruct (reachable_purityMix s Hs) as [Hlo Hhi].
      exact (totals_step s _ _ _ _ (random i) Hlo Hhi Hf Hp Hd Hsp).
    + apply IH. now apply reach_tick.
Qed.

(** ** Snapshots *)

Section SnapshotEquations.

Variables (s : ChemistryEngine) (f p d sp r : Q).

Let s' := Chem.tick s f p d sp r.

Lemma history_eq :
  history s' =
  if (lastSnapshotDay s <? currentDay s')%Z
  then Chem.pushSnapshot (history s) (snapshotOf s')
  else history s.
Proof. reflexivity. Qed.

Lemma lastSnapshotDay_eq :
  lastSnapshotDay s' =
  if (lastSnapshotDay s <? currentDay s')%Z
  then currentDay s' else lastSnapshotDay s.
Proof. reflexivity. Qed.

(** A call either pushes the snapshot of the day it reached and moves
    [lastSnapshotDay] up to that day, or leaves both alone. *)
Lemma tick_history_cases :
  (snapshotTaken s s' = true
   /\ (lastSnapshotDay s < currentDay s')%Z
   /\ history s' = Chem.pushSnapshot (history s) (snapshotOf s')
   /\ lastSnapshotDay s' = currentDay s')
  \/ (snapshotTaken s s' = false
      /\ history s' = history s
      /\ lastSnapshotDay s' = lastSnapshotDay s).
Proof.
  unfold snapshotTaken. rewrite history_eq, lastSnapshotDay_eq.
  destruct (lastSnapshotDay s <? currentDay s')%Z eqn:E.
  - left. rewrite E. apply Z.ltb_lt in E. repeat split; trivial.
  - right. rewrite Z.ltb_irrefl. repeat split.
Qed.

End SnapshotEquations.

Lemma currentDay_nonneg (s : ChemistryEngine) :
  0 <= simTimeMs s -> (0 <= currentDay s)%Z.
Proof.
  intro H. unfold currentDay.
  change 0%Z with (Qfloor 0). apply Qfloor_resp_le.
  unfold Qdiv. apply Qmult_le_0_compat; [ exact H | ].
  vm_compute; discriminate.
Qed.

Lemma currentDay_first_day (s : ChemistryEngine) :
  0 <= simTimeMs s -> simTimeMs s < Chem.msPerDay -> currentDay s = 0%Z.
Proof.
  intros Hlo Hhi.
  assert (Hpos : 0 < Chem.msPerDay) by reflexivity.
  assert (H0 : (0 <= currentDay s)%Z) by now apply currentDay_nonneg.
  assert (H1 : (currentDay s < 1)%Z).
  { unfold currentDay.
    assert (Hq : simTimeMs s / Chem.msPerDay < 1).
    { apply Qlt_shift_div_r; [ exact Hpos | lra ]. }
    pose proof (Qfloor_le (simTimeMs s / Chem.msPerDay)) as Hf.
    assert (Hz : inject_Z (Qfloor (simTimeMs s / Chem.msPerDay)) < inject_Z 1)
      by (change (inject_Z 1) with 1; lra).
    now rewrite <- Zlt_Qlt in Hz. }
  lia.
Qed.

Lemma fresh_is_constructor (s : ChemistryEngine) :
  fresh s -> s = Chem.constructor.
Proof. intros [H | [s0 H]]; exact H. Qed.

(** C10. The first [calculateReaction] call after construction or after
    [reset()], with a non-negative [dt] and [speed], reaches a day index
    of at least 0 and so appends its snapshot: the history is exactly that
    one snapshot. When the simulated time of the call is shorter than one
    day the snapshot recorded has [day = 0]. *)
Theorem first_call_appends (s0 : ChemistryEngine) (f p d sp r : Q) :
  fresh s0 -> 0 <= d -> 0 <= sp ->
  let s' := Chem.tick s0 f p d sp r in
  snapshotTaken s0 s' = true
  /\ (0 <= currentDay s')%Z
  /\ history s' = [snapshotOf s']
  /\ lastSnapshotDay s' = currentDay s'
  /\ ((d / 1000) * sp * (4 * 3600) * 1000 < Chem.msPerDay ->
      history s' =
      [ {| day := 0;
           revenue := totalRevenue s';
           savings := totalSavings s';
           cost := totalVariableCost s' + totalFixedCost s' |} ]).
Proof.
  intros Hfresh Hd Hsp s'. subst s'.
  apply fresh_is_constructor in Hfresh. subst s0.
  set (s' := Chem.tick Chem.constructor f p d sp r).
  assert (Htime : simTimeMs s' == (d / 1000) * sp * (4 * 3600) * 1000).
  { unfold s'. rewrite simTimeMs_eq. change (simTimeMs Chem.constructor) with 0.
    ring. }
  assert (Hnn : 0 <= simTimeMs s').
  { rewrite Htime. nonneg. }
  pose proof (currentDay_nonneg s' Hnn) as Hday.
  assert (Hlt : (lastSnapshotDay Chem.constructor <? currentDay s')%Z = true).
  { apply Z.ltb_lt. change (lastSnapshotDay Chem.constructor) with (-1)%Z. lia. }
  assert (Hhist : history s' = [snapshotOf s']).
  { unfold s' at 1. rewrite history_eq. fold s'. rewrite Hlt. reflexivity. }
  assert (Hlast : lastSnapshotDay s' = currentDay s').
  { unfold s' at 1. rewrite lastSnapshotDay_eq. fold s'. now rewrite Hlt. }
  split; [ | split; [ exact Hday | split; [ exact Hhist | split; [ exact Hlast | ] ] ] ].
  - unfold snapshotTaken. rewrite Hlast. exact Hlt.
  - intro Hshort. rewrite Hhist. unfold snapshotOf.
    rewrite (currentDay_first_day s' Hnn); [ reflexivity | ].
    rewrite Htime. exact Hshort.
Qed.

Lemma first_call_appends_witness :
  let s' := Chem.tick (Chem.reset Chem.constructor) 450 50 16 1 (1 # 2) in
  history s' =
  [ {| day := 0;
       revenue := totalRevenue s';
       savings := totalSavings s';
       cost := totalVariableCost s' + totalFixedCost s' |} ].
Proof.
  refine (proj2 (proj2 (proj2 (proj2
    (first_call_appends (Chem.reset Chem.constructor) 450 50 16 1 (1 # 2)
       _ _ _)))) _).
  - right. exists Chem.constructor. reflexivity.
  - vm_compute; discriminate.
  - vm_compute; discriminate.
  - reflexivity.
Defined.

(** ** The history: bounded, sorted, one snapshot per day *)

Lemma StronglySorted_snoc {A : Type} (R : A -> A -> Prop) (l : list A) (a : A) :
  StronglySorted R l -> Forall (fun b => R b a) l -> StronglySorted R (l ++ [a]).
Proof.
  induction 1 as [ | b l Hl IH Hb ]; intro Hall; simpl.
  - constructor; constructor.
  - inversion Hall as [ | ? ? Hba Hrest ]; subst.
    constructor.
    + apply IH, Hrest.
    + apply Forall_app. split; [ exact Hb | constructor; [ exact Hba | constructor ] ].
Qed.

Lemma StronglySorted_tl {A : Type} (R : A -> A -> Prop) (l : list A) :
  StronglySorted R l -> StronglySorted R (tl l).
Proof. destruct 1; simpl; [ constructor | assumption ]. Qed.

Lemma Forall_tl {A : Type} (P : A -> Prop) (l : list A) :
  Forall P l -> Forall P (tl l).
Proof. destruct 1; simpl; [ constructor | assumption ]. Qed.

Lemma pushSnapshot_length (h : list Snapshot) (snap : Snapshot) :
  (length h <= 40 -> length (Chem.pushSnapshot h snap) <= 40)%nat.
Proof.
  intro H. unfold Chem.pushSnapshot.
  destruct (40 <? length (h ++ [snap]))%nat eqn:E.
  - destruct h as [ | a h ]; simpl in *; [ lia | ].
    rewrite length_app. simpl. lia.
  - apply Nat.ltb_ge in E. exact E.
Qed.

Lemma pushSnapshot_sorted (h : list Snapshot) (snap : Snapshot) :
  StronglySorted dayLt h -> Forall (fun a => dayLt a snap) h ->
  StronglySorted dayLt (Chem.pushSnapshot h snap).
Proof.
  intros Hs Hall. unfold Chem.pushSnapshot.
  pose proof (StronglySorted_snoc dayLt h snap Hs Hall) as H.
  destruct (40 <? length (h ++ [snap]))%nat; [ now apply StronglySorted_tl | exact H ].
Qed.

Lemma pushSnapshot_Forall (P : Snapshot -> Prop) (h : list Snapshot)
    (snap : Snapshot) :
  Forall P h -> P snap -> Forall P (Chem.pushSnapshot h snap).
Proof.
  intros Hall Hsnap. unfold Chem.pushSnapshot.
  assert (H : Forall P (h ++ [snap])).
  { apply Forall_app. split; [ exact Hall | constructor; [ exact Hsnap | constructor ] ]. }
  destruct (40 <? length (h ++ [snap]))%nat; [ now apply Forall_tl | exact H ].
Qed.

Lemma historyInv_constructor : historyInv Chem.constructor.
Proof.
  split; [ simpl; lia | split; constructor ].
Qed.

Lemma historyInv_tick (s : ChemistryEngine) (i : Inputs) :
  historyInv s -> historyInv (tickWith s i).
Proof.
  intros (Hlen & Hsorted & Hbound). unfold tickWith.
  set (s' := Chem.tick s (flowRate i) (ppmF i) (dt i) (speed i) (random i)).
  destruct (tick_history_cases s (flowRate i) (ppmF i) (dt i) (speed i) (random i))
    as [ (_ & Hlt & Hh & Hl) | (_ & Hh & Hl) ]; fold s' in Hh, Hl.
  - fold s' in Hlt. unfold historyInv. rewrite Hh, Hl. split; [ | split ].
    + now apply pushSnapshot_length.
    + apply pushSnapshot_sorted; [ exact Hsorted | ].
      eapply Forall_impl; [ | exact Hbound ].
      intros a Ha. unfold dayLt, snapshotOf. cbn [day]. cbv beta in Ha. lia.
    + apply pushSnapshot_Forall.
      * eapply Forall_impl; [ | exact Hbound ]. intros a Ha. cbv beta in Ha. lia.
      * unfold snapshotOf. cbn [day]. lia.
  - unfold historyInv. rewrite Hh, Hl. repeat split; assumption.
Qed.

Lemma run_cons (s : ChemistryEngine) (i : Inputs) (calls : list Inputs) :
  run s (i :: calls) = run (tickWith s i) calls.
Proof. reflexivity. Qed.

Lemma appendedDays_cons (s : ChemistryEngine) (i : Inputs) (calls : list Inputs) :
  appendedDays s (i :: calls) =
  if snapshotTaken s (tickWith s i)
  then lastSnapshotDay (tickWith s i) :: appendedDays (tickWith s i) calls
  else appendedDays (tickWith s i) calls.
Proof. reflexivity. Qed.

Lemma historyInv_run (calls : list Inputs) (s : ChemistryEngine) :
  historyInv s -> historyInv (run s calls).
Proof.
  revert s. induction calls as [ | i calls IH ]; intros s H.
  - exact H.
  - rewrite run_cons. apply IH. now apply historyInv_tick.
Qed.

Lemma lastSnapshotDay_mono (s : ChemistryEngine) (i : Inputs) :
  (lastSnapshotDay s <= lastSnapshotDay (tickWith s i))%Z.
Proof.
  unfold tickWith.
  destruct (tick_history_cases s (flowRate i) (ppmF i) (dt i) (speed i) (random i))
    as [ (_ & Hlt & _ & Hl) | (_ & _ & Hl) ]; rewrite Hl; lia.
Qed.

(** The days appended along a run all lie above the [lastSnapshotDay] the
    run started from, and each above the one before. *)
Lemma appendedDays_sorted (calls : list Inputs) (s : ChemistryEngine) :
  StronglySorted Z.lt (appendedDays s calls)
  /\ Forall (fun d => (lastSnapshotDay s < d)%Z) (appendedDays s calls).
Proof.
  revert s. induction calls as [ | i calls IH ]; intro s.
  - split; constructor.
  - rewrite appendedDays_cons.
    destruct (IH (tickWith s i)) as [Hs Hb].
    pose proof (lastSnapshotDay_mono s i) as Hmono.
    destruct (snapshotTaken s (tickWith s i)) eqn:E.
    + unfold snapshotTaken in E. apply Z.ltb_lt in E. split.
      * constructor; [ exact Hs | exact Hb ].
      * constructor; [ exact E | ].
        eapply Forall_impl; [ | exact Hb ]. intros d Hd. cbv beta in Hd. lia.
    + split; [ exact Hs | ].
      eapply Forall_impl; [ | exact Hb ]. intros d Hd. cbv beta in Hd. lia.
Qed.

Lemma StronglySorted_lt_NoDup (l : list Z) : StronglySorted Z.lt l -> NoDup l.
Proof.
  induction 1 as [ | a l Hl IH Ha ]; constructor; [ | exact IH ].
  intro Hin. rewrite Forall_forall in Ha. specialize (Ha a Hin). lia.
Qed.

(** Every snapshot a run leaves in the history was in the history it
    started from or was appended by one of its calls. *)
Lemma history_from_appended (calls : list Inputs) (s : ChemistryEngine) :
  Forall (fun h => In h (history s) \/ In (day h) (appendedDays s calls))
         (history (run s calls)).
Proof.
  revert s. induction calls as [ | i calls IH ]; intro s.
  - apply Forall_forall. intros h Hh. now left.
  - rewrite run_cons, appendedDays_cons.
    specialize (IH (tickWith s i)).
    eapply Forall_impl; [ | exact IH ].
    intros h [Hin | Hin]; cbv beta.
    + unfold tickWith in Hin |- *.
      destruct (tick_history_cases s (flowRate i) (ppmF i) (dt i) (speed i) (random i))
        as [ (Ht & _ & Hh & Hl) | (Ht & Hh & _) ].
      * rewrite Ht. rewrite Hh in Hin. unfold Chem.pushSnapshot in Hin.
        assert (Hin' : In h (history s ++ [snapshotOf
                  (Chem.tick s (flowRate i) (ppmF i) (dt i) (speed i) (random i))])).
        { destruct (40 <? _)%nat in Hin; [ | exact Hin ].
          destruct (history s ++ _) as [ | a l ]; [ exact Hin | now right ]. }
        apply in_app_or in Hin'. destruct Hin' as [Hold | [Hnew | []]].
        -- now left.
        -- right. cbv iota. rewrite Hl. subst h.
           unfold snapshotOf. cbn [day]. apply in_eq.
      * rewrite Ht. rewrite Hh in Hin. now left.
    + right. destruct (snapshotTaken s (tickWith s i)); [ apply in_cons | ]; exact Hin.
Qed.

(** C5. After any sequence of [calculateReaction] calls from the initial or
    the reset state the history holds at most 40 snapshots, strictly
    increasing in [day]; the days of the snapshots appended along the way
    are strictly increasing too, so no day value is appended twice, and
    every snapshot in the history is one of them. *)
Theorem history_bounded_sorted (s0 : ChemistryEngine) (calls : list Inputs) :
  fresh s0 ->
  let s := run s0 calls in
  (length (history s) <= 40)%nat
  /\ StronglySorted dayLt (history s)
  /\ StronglySorted Z.lt (appendedDays s0 calls)
  /\ NoDup (appendedDays s0 calls)
  /\ Forall (fun h => In (day h) (appendedDays s0 calls)) (history s).
Proof.
  intros Hfresh s. subst s.
  apply fresh_is_constructor in Hfresh. subst s0.
  destruct (historyInv_run calls Chem.constructor historyInv_constructor)
    as (Hlen & Hsorted & _).
  destruct (appendedDays_sorted calls Chem.constructor) as [Happ _].
  repeat split; try assumption.
  - now apply StronglySorted_lt_NoDup.
  - eapply Forall_impl; [ | apply history_from_appended ].
    intros h [[] | Hin]. exact Hin.
Qed.

Lemma history_bounded_sorted_witness :
  let calls := [ mkInputs 450 50 8000 1 (1 # 2);
                 mkInputs 450 50 2000 3 (1 # 4);
                 mkInputs 450 50 9000 2 (3 # 4) ] in
  let s := run (Chem.reset Chem.constructor) calls in
  (length (history s) <= 40)%nat
  /\ StronglySorted dayLt (history s)
  /\ StronglySorted Z.lt (appendedDays (Chem.reset Chem.constructor) calls)
  /\ NoDup (appendedDays (Chem.reset Chem.constructor) calls)
  /\ Forall (fun h => In (day h) (appendedDays (Chem.reset Chem.constructor) calls))
            (history s).
Proof.
  apply (history_bounded_sorted (Chem.reset Chem.constructor)).
  right. exists Chem.constructor. reflexivity.
Defined.

(** Fifty calls of eight real seconds each (32 simulated hours): sixty-six
    days pass, fifty snapshots are appended and the oldest ten evicted. *)
Example history_cap_reached :
  let calls := repeat (mkInputs 450 50 8000 1 (1 # 2)) 50 in
  let s := run Chem.constructor calls in
  length (appendedDays Chem.constructor calls) = 50%nat
  /\ length (history s) = 40%nat
  /\ map day (firstn 3 (history s)) = [14; 16; 17]%Z
  /\ lastSnapshotDay s = 66%Z.
Proof. lazy. repeat split. Qed.

(** ** The pH relaxation *)

Lemma ph_step_offset (s : ChemistryEngine) (f p d sp : Q) :
  currentPH (Chem.tick s f p d sp noDrift) - 8.2 == 0.9 * (currentPH s - 8.2).
Proof.
  rewrite currentPH_eq. unfold CONFIG.PHYSICS.TARGET_PH, noDrift. ring.
Qed.

Lemma ph_step_distance (s : ChemistryEngine) (f p d sp : Q) :
  Qabs (currentPH (Chem.tick s f p d sp noDrift) - 8.2)
  == 0.9 * Qabs (currentPH s - 8.2).
Proof.
  rewrite ph_step_offset, Qabs_Qmult. reflexivity.
Qed.

Lemma Qabs_pos_of_neq (z : Q) : ~ z == 0 -> 0 < Qabs z.
Proof.
  intro H. destruct (Qlt_le_dec 0 (Qabs z)) as [Hlt | Hle]; [ exact Hlt | ].
  exfalso. apply H.
  apply Qabs_Qle_condition in Hle. lra.
Qed.

Lemma relaxFactor_range (n : nat) : 0 <= relaxFactor n /\ relaxFactor n <= 1.
Proof.
  induction n as [ | n [Hlo Hhi] ]; cbn [relaxFactor].
  - split; lra.
  - split; lra.
Qed.

Lemma relaxFactor_bound (n : nat) :
  relaxFactor n * inject_Z (Z.of_nat n + 9) <= 9.
Proof.
  induction n as [ | n IH ].
  - vm_compute. discriminate.
  - destruct (relaxFactor_range n) as [Hlo Hhi].
    cbn [relaxFactor].
    replace (Z.of_nat (S n) + 9)%Z with ((Z.of_nat n + 9) + 1)%Z by lia.
    rewrite inject_Z_plus.
    set (u := relaxFactor n) in *. set (t := inject_Z (Z.of_nat n + 9)) in *.
    clearbody u t. change (inject_Z 1) with 1.
    assert (E : 0.9 * u * (t + 1) == 0.9 * (u * t) + 0.9 * u) by ring.
    rewrite E. lra.
Qed.

Lemma relaxFactor_vanishes (dist eps : Q) :
  0 <= dist -> 0 < eps ->
  exists N : nat, forall n : nat, (N <= n)%nat -> relaxFactor n * dist < eps.
Proof.
  intros Hd He.
  exists (Z.to_nat (Qceiling (9 * dist / eps))). intros n Hn.
  set (t := inject_Z (Z.of_nat n + 9)).
  assert (Ht : 0 < t).
  { unfold t. change 0 with (inject_Z 0). rewrite <- Zlt_Qlt. lia. }
  assert (Hbig : 9 * dist / eps < t).
  { apply Qle_lt_trans with (inject_Z (Qceiling (9 * dist / eps))).
    - apply Qle_ceiling.
    - unfold t. rewrite <- Zlt_Qlt. lia. }
  assert (Hbig' : 9 * dist < eps * t).
  { assert (E : 9 * dist == (9 * dist / eps) * eps) by (field; lra).
    rewrite E. rewrite (Qmult_comm eps t).
    apply Qmult_lt_compat_r; assumption. }
  pose proof (relaxFactor_bound n) as Hb. fold t in Hb.
  assert (Hb' : (relaxFactor n * t) * dist <= 9 * dist).
  { apply Qmult_le_compat_r; assumption. }
  apply Qmult_lt_r with t; [ exact Ht | ].
  assert (E : relaxFactor n * dist * t == relaxFactor n * t * dist) by ring.
  rewrite E. lra.
Qed.

Lemma ph_call_offset (s : ChemistryEngine) (i : Inputs) :
  random i == noDrift ->
  currentPH (tickWith s i) - 8.2 == 0.9 * (currentPH s - 8.2).
Proof.
  intro H. unfold tickWith. rewrite currentPH_eq, H.
  unfold CONFIG.PHYSICS.TARGET_PH, noDrift. ring.
Qed.

(** After [n] calls without drift the distance to the target is [0.9 ^ n]
    times what it was. *)
Lemma ph_run_distance (calls : list Inputs) (s : ChemistryEngine) :
  Forall (fun i => random i == noDrift) calls ->
  Qabs (currentPH (run s calls) - 8.2)
  == relaxFactor (length calls) * Qabs (currentPH s - 8.2).
Proof.
  intro H. revert s. induction H as [ | i calls Hi _ IH ]; intro s.
  - change (run s []) with s. cbn [length relaxFactor]. ring.
  - rewrite run_cons, IH, (ph_call_offset s i Hi), Qabs_Qmult.
    cbn [length relaxFactor]. change (Qabs 0.9) with 0.9. ring.
Qed.

(** C9, as the code has it, in exact arithmetic. With the perturbation
    at zero one call multiplies the distance of [currentPH] to 8.2 by
    exactly 0.9 and keeps
    [currentPH] on its side of 8.2, between the old value and the target; the
    distance strictly decreases from every value other than 8.2 itself.
    Over [n] such calls the distance is [0.9 ^ n] times the first one, and
    it falls below any positive bound after enough calls. *)
Theorem ph_relaxation (s : ChemistryEngine) (f p d sp : Q) :
  let pH := currentPH s in
  let pH' := currentPH (Chem.tick s f p d sp noDrift) in
  Qabs (pH' - 8.2) == 0.9 * Qabs (pH - 8.2)
  /\ (pH <= 8.2 -> pH <= pH' /\ pH' <= 8.2)
  /\ (8.2 <= pH -> 8.2 <= pH' /\ pH' <= pH)
  /\ (~ pH == 8.2 -> Qabs (pH' - 8.2) < Qabs (pH - 8.2))
  /\ (forall calls, Forall (fun i => random i == noDrift) calls ->
       Qabs (currentPH (run s calls) - 8.2)
       == relaxFactor (length calls) * Qabs (pH - 8.2))
  /\ (forall eps, 0 < eps ->
       exists N : nat, forall calls,
         Forall (fun i => random i == noDrift) calls ->
         (N <= length calls)%nat ->
         Qabs (currentPH (run s calls) - 8.2) < eps).
Proof.
  intros pH pH'. subst pH pH'.
  assert (Hruns : forall calls, Forall (fun i => random i == noDrift) calls ->
            Qabs (currentPH (run s calls) - 8.2)
            == relaxFactor (length calls) * Qabs (currentPH s - 8.2))
    by (intros calls Hc; now apply ph_run_distance).
  assert (Hlimit : forall eps, 0 < eps ->
            exists N : nat, forall calls,
              Forall (fun i => random i == noDrift) calls ->
              (N <= length calls)%nat ->
              Qabs (currentPH (run s calls) - 8.2) < eps).
  { intros eps Heps.
    destruct (relaxFactor_vanishes (Qabs (currentPH s - 8.2)) eps
                (Qabs_nonneg _) Heps) as [N HN].
    exists N. intros calls Hc Hlen. rewrite (Hruns calls Hc). now apply HN. }
  pose proof (ph_step_offset s f p d sp) as Hoff.
  pose proof (ph_step_distance s f p d sp) as Hdist.
  set (a := currentPH s) in *.
  set (b := currentPH (Chem.tick s f p d sp noDrift)) in *.
  clearbody a b.
  split; [ exact Hdist | ].
  split; [ intro; split; lra | ].
  split; [ intro; split; lra | ].
  split; [ | split; [ exact Hruns | exact Hlimit ] ].
  intro Hne. rewrite Hdist.
  assert (Hpos : 0 < Qabs (a - 8.2)).
  { apply Qabs_pos_of_neq. intro E. apply Hne. lra. }
  lra.
Qed.

Lemma ph_relaxation_witness :
  Qabs (currentPH (Chem.tick Chem.constructor 450 50 16 1 noDrift) - 8.2)
  < Qabs (currentPH Chem.constructor - 8.2).
Proof.
  apply (proj1 (proj2 (proj2 (proj2 (ph_relaxation Chem.constructor 450 50 16 1))))).
  vm_compute. discriminate.
Defined.

(** C9, as stated, fails at the target itself: the distance is 0 before the
    call and 0 after it, so it does not strictly decrease. *)
Lemma ph_at_target_not_strict :
  ~ (Qabs (currentPH (Chem.tick atTarget 450 50 16 1 noDrift) - 8.2)
     < Qabs (currentPH atTarget - 8.2)).
Proof. vm_compute. intro H. discriminate H. Qed.

(** In binary64 the pH without perturbation, started at the constructor's
    7.0, still rises on its 309th step and then stays where it is, below
    8.2: the strict decrease and the limit above are facts of the exact
    reading. *)
Example binary64_ph_stalls :
  let v := Binary64.phSteps 309 7%float in
  PrimFloat.ltb (Binary64.phSteps 308 7%float) v = true
  /\ PrimFloat.eqb (Binary64.phStep v) v = true
  /\ PrimFloat.ltb v 8.2%float = true.
Proof. vm_compute. repeat split. Qed.

(** ** The rolling window of [updateUI] *)

Lemma divide_nonzero (a b : Q) : ~ b == 0 -> divide a b = Done (a / b).
Proof.
  intro H. unfold divide.
  destruct (Qeq_bool b 0) eqn:E; [ | reflexivity ].
  apply Qeq_bool_iff in E. contradiction.
Qed.

Lemma element_in_range {A : Type} (arr : list A) (i : nat) :
  (i < length arr)%nat -> exists a, element arr i = Done a /\ nth_error arr i = Some a.
Proof.
  intro H. unfold element.
  destruct (nth_error arr i) as [a | ] eqn:E.
  - exists a. split; reflexivity.
  - apply nth_error_None in E. lia.
Qed.

Lemma referenceSnapshot_total (h : list Snapshot) (targetDay : Z) :
  (0 < length h)%nat -> exists prev, referenceSnapshot h targetDay = Done prev.
Proof.
  intro H. unfold referenceSnapshot.
  destruct (find _ h) as [a | ].
  - exists a. reflexivity.
  - destruct (element_in_range h 0 H) as (a & Ha & _). exists a. exact Ha.
Qed.

Lemma Qltb_true (a b : Q) : Qltb a b = true <-> a < b.
Proof.
  unfold Qltb. rewrite negb_true_iff.
  destruct (Qle_bool b a) eqn:E.
  - apply Qle_bool_iff in E. split; [ discriminate | intro; exfalso; lra ].
  - split; [ intros _ | reflexivity ].
    apply Qnot_le_lt. intro H. apply Qle_bool_iff in H. congruence.
Qed.

Lemma Qltb_false (a b : Q) : Qltb a b = false <-> b <= a.
Proof.
  unfold Qltb. rewrite negb_false_iff. apply Qle_bool_iff.
Qed.

Lemma Qleb_true (a b : Q) : Qleb a b = true <-> a <= b.
Proof. apply Qle_bool_iff. Qed.

Lemma inject_Z_pos_nonzero (z : Z) : (0 < z)%Z -> ~ inject_Z z == 0.
Proof.
  intros Hz E. unfold Qeq, inject_Z in E. cbn [Qnum Qden] in E. lia.
Qed.

(** The window block on its own: it always yields a value, and which. *)
Lemma windowBlock_cases (chem : ChemistryEngine) (profit totalDays : Q) (w : Window) :
  exists w', windowBlock chem profit totalDays w = Done w'
  /\ ((2 < length (history chem))%nat ->
      exists now prev,
        element (history chem) (length (history chem) - 1) = Done now
        /\ referenceSnapshot (history chem) (day now - 30) = Done prev
        /\ ((0 < day now - day prev)%Z ->
            w' = {| rev30 := (revenue now - revenue prev)
                             * (30 / inject_Z (day now - day prev));
                    pro30 := (snapshotProfit now - snapshotProfit prev)
                             * (30 / inject_Z (day now - day prev)) |})
        /\ ((day now - day prev <= 0)%Z -> w' = w))
  /\ ((length (history chem) <= 2)%nat -> 0.01 < totalDays ->
      w' = {| rev30 := totalRevenue chem / totalDays * 30;
              pro30 := profit / totalDays * 30 |})
  /\ ((length (history chem) <= 2)%nat -> totalDays <= 0.01 -> w' = w).
Proof.
  unfold windowBlock.
  destruct (2 <? length (history chem))%nat eqn:Elen.
  - apply Nat.ltb_lt in Elen.
    destruct (element_in_range (history chem) (length (history chem) - 1))
      as (now & Hnow & _); [ lia | ].
    destruct (referenceSnapshot_total (history chem) (day now - 30))
      as (prev & Hprev); [ lia | ].
    rewrite Hnow. cbn [bind]. rewrite Hprev. cbn [bind].
    destruct (0 <? day now - day prev)%Z eqn:Espan.
    + apply Z.ltb_lt in Espan.
      rewrite (divide_nonzero 30 _ (inject_Z_pos_nonzero _ Espan)). cbn [bind].
      eexists. split; [ reflexivity | ].
      split; [ | split; intros; lia ].
      intros _. exists now, prev.
      split; [ first [ exact Hnow | reflexivity ] | split; [ exact Hprev | split ] ].
      * intros _. reflexivity.
      * intro. lia.
    + apply Z.ltb_ge in Espan.
      exists w. split; [ reflexivity | ].
      split; [ | split; intros; lia ].
      intros _. exists now, prev.
      split; [ first [ exact Hnow | reflexivity ] | split; [ exact Hprev | split ] ].
      * intro. lia.
      * intros _. reflexivity.
  - apply Nat.ltb_ge in Elen.
    destruct (Qltb 0.01 totalDays) eqn:Edays.
    + apply Qltb_true in Edays.
      assert (Hnz : ~ totalDays == 0) by (intro E; rewrite E in Edays; discriminate Edays).
      rewrite !(divide_nonzero _ _ Hnz). cbn [bind].
      eexists. split; [ reflexivity | ].
      split; [ intro; lia | split ].
      * intros _ _. reflexivity.
      * intros _ Hle. lra.
    + apply Qltb_false in Edays.
      exists w. split; [ reflexivity | ].
      split; [ intro; lia | split ].
      * intros _ Hlt. lra.
      * intros _ _. reflexivity.
Qed.

Lemma updateUI_eq (chem : ChemistryEngine) :
  let profit :=
    (totalRevenue chem - (totalVariableCost chem + orZero (totalFixedCost chem)))
    + totalSavings chem in
  exists w,
    windowBlock chem profit (simTimeMs chem / Chem.msPerDay)
                {| rev30 := 0; pro30 := 0 |} = Done w
    /\ updateUI chem =
       Done {| netProfit := profit; window := w;
               roi := pro30 w * 12 / CONFIG.FINANCIAL.CAPEX * 100 |}.
Proof.
  intro profit.
  destruct (windowBlock_cases chem profit (simTimeMs chem / Chem.msPerDay)
              {| rev30 := 0; pro30 := 0 |}) as (w & Hw & _).
  exists w. split; [ exact Hw | ].
  unfold updateUI. fold profit. rewrite Hw. reflexivity.
Qed.

(** C7, as the code has it. [updateUI] always produces its report:
    neither branch of the window computation reads a missing snapshot or
    divides by zero. With three or more snapshots and a positive day span
    between the reference and the latest snapshot, the two window values
    reported are the revenue and profit deltas scaled by [30 / span]; with a
    span that is not positive the assignment is skipped and both values
    reported are 0, the value [updateUI] gives its two locals on every call,
    whatever was reported before; with fewer than three snapshots and more
    than 0.01 simulated days they are the cumulative revenue and net profit
    divided by the simulated days, times 30; otherwise both are 0. *)
Theorem rolling_window_report (chem : ChemistryEngine) :
  let profit :=
    (totalRevenue chem - (totalVariableCost chem + orZero (totalFixedCost chem)))
    + totalSavings chem in
  let totalDays := simTimeMs chem / Chem.msPerDay in
  exists rep,
    updateUI chem = Done rep
    /\ netProfit rep = profit
    /\ ((2 < length (history chem))%nat ->
        exists now prev,
          element (history chem) (length (history chem) - 1) = Done now
          /\ referenceSnapshot (history chem) (day now - 30) = Done prev
          /\ ((0 < day now - day prev)%Z ->
              window rep
              = {| rev30 := (revenue now - revenue prev)
                            * (30 / inject_Z (day now - day prev));
                   pro30 := (snapshotProfit now - snapshotProfit prev)
                            * (30 / inject_Z (day now - day prev)) |})
          /\ ((day now - day prev <= 0)%Z ->
              window rep = {| rev30 := 0; pro30 := 0 |}))
    /\ ((length (history chem) <= 2)%nat -> 0.01 < totalDays ->
        window rep = {| rev30 := totalRevenue chem / totalDays * 30;
                        pro30 := profit / totalDays * 30 |})
    /\ ((length (history chem) <= 2)%nat -> totalDays <= 0.01 ->
        window rep = {| rev30 := 0; pro30 := 0 |}).
Proof.
  intros profit totalDays.
  destruct (updateUI_eq chem) as (w & Hw & Hui). fold profit in Hw, Hui.
  destruct (windowBlock_cases chem profit totalDays {| rev30 := 0; pro30 := 0 |})
    as (w' & Hw' & Hmany & Hfew & Hnone).
  assert (E : w' = w) by (unfold totalDays in Hw'; congruence). subst w'.
  eexists. split; [ exact Hui | ]. cbn [netProfit window].
  split; [ reflexivity | split; [ exact Hmany | split; [ exact Hfew | exact Hnone ] ] ].
Qed.

(** A stalled frame: two short calls, then one that jumps 99 days ahead.
    The history holds days 0, 1 and 100, the reference snapshot of the
    window is the latest one itself, the span is zero and the report shows
    the two window values at zero. *)
Example zero_span_frame :
  let calls := [ mkInputs 450 50 16 1 (1 # 2);
                 mkInputs 450 50 8000 1 (1 # 2);
                 mkInputs 450 50 594000 1 (1 # 2) ] in
  let chem := run Chem.constructor calls in
  map day (history chem) = [0; 1; 100]%Z
  /\ exists rep, updateUI chem = Done rep
       /\ window rep = {| rev30 := 0; pro30 := 0 |}.
Proof.
  lazy zeta. split.
  - lazy. reflexivity.
  - destruct (updateUI_eq (run Chem.constructor
        [ mkInputs 450 50 16 1 (1 # 2); mkInputs 450 50 8000 1 (1 # 2);
          mkInputs 450 50 594000 1 (1 # 2) ])) as (w & Hw & Hui).
    eexists. split; [ exact Hui | ]. cbn [window].
    lazy in Hw. now inversion Hw.
Qed.

(** C7, as stated, fails on that frame: the report of the frame before
    shows a window revenue that is not zero, and the report of the stalled
    frame shows zero for both window values. What was reported is not kept. *)
Lemma zero_span_wipes_window :
  let before := run Chem.constructor
                  [ mkInputs 450 50 16 1 (1 # 2); mkInputs 450 50 8000 1 (1 # 2) ] in
  let after := tickWith before (mkInputs 450 50 594000 1 (1 # 2)) in
  match updateUI before, updateUI after with
  | Done shown, Done rep =>
      map day (history after) = [0; 1; 100]%Z
      /\ rev30 (window shown) == 1895400 # 19
      /\ window rep = {| rev30 := 0; pro30 := 0 |}
      /\ ~ rev30 (window rep) == rev30 (window shown)
  | _, _ => False
  end.
Proof.
  vm_compute. split; [ reflexivity | split; [ reflexivity | split; [ reflexivity | ] ] ].
  intro H. discriminate H.
Qed.

(** Forty evenly spaced daily snapshots: the reference is day 9, the span
    is 30 days, the window revenue is 30 days of 1000 and the window profit
    30 days of 1000 - 400 + 100; the return on investment is 1.68 percent. *)
Example synthetic_window :
  exists rep, updateUI syntheticEngine = Done rep
    /\ rev30 (window rep) == 30000
    /\ pro30 (window rep) == 21000
    /\ roi rep == 1.68.
Proof.
  destruct (updateUI_eq syntheticEngine) as (w & Hw & Hui).
  eexists. split; [ exact Hui | ]. cbn [window roi].
  vm_compute in Hw. inversion Hw. repeat split.
Qed.

(** ** Return on investment *)

(** C1, as the code has it. The reported return on investment is the
    window profit times 12, over [CAPEX] = 15,000,000, times 100. *)
Theorem roi_annualised (chem : ChemistryEngine) :
  exists rep, updateUI chem = Done rep
    /\ roi rep == (pro30 (window rep) * 12) / 15000000 * 100.
Proof.
  destruct (updateUI_eq chem) as (w & _ & Hui).
  eexists. split; [ exact Hui | ]. cbn [roi window].
  unfold CONFIG.FINANCIAL.CAPEX. reflexivity.
Qed.

(** C1, as stated, fails: after one second at the default controls the
    window profit is not zero and 12 is not 365/30. *)
Lemma roi_not_365_over_30 :
  match updateUI (Chem.tick Chem.constructor 450 50 1000 1 (1 # 2)) with
  | Done rep => ~ roi rep == describedRoi (pro30 (window rep))
  | Raised _ => False
  end.
Proof. vm_compute. intro H. discriminate H. Qed.

(** The older [simulation.js] takes the figure from the all-time net
    profit, with its own [CAPEX] of 1,000,000, and does not annualise. *)
Lemma legacy_roi (chem : ChemistryEngine) (rep : Report) :
  Legacy.updateUI chem = Done rep ->
  roi rep = netProfit rep / 1000000 * 100.
Proof.
  unfold Legacy.updateUI. intro H.
  destruct (if (1 <? length (history chem))%nat then _ else _) as [w | e];
    cbn [bind] in H; [ | discriminate H ].
  inversion H. reflexivity.
Qed.

(** ** Crystal particles: Sedimenting is terminal *)

Section CrystalFacts.

Variable Math_sin : Q -> Q.


(** The flag is only ever assigned [true]. *)
Lemma sedimenting_never_cleared (p : Particle) (d v c : Q) :
  sedimenting p = true -> sedimenting (update Math_sin p d v c) = true.
Proof.
  intro H. unfold update. destruct (type p); cbn [sedimenting].
  - rewrite H. now destruct (_ || _).
  - exact H.
Qed.

(** The size is only ever added to. *)
Lemma size_never_decreases (p : Particle) (d v c : Q) :
  size p <= size (update Math_sin p d v c).
Proof.
  unfold update. destruct (type p); cbn [size].
  - destruct (_ && _); lra.
  - lra.
Qed.

(** One update of a crystal that is at the maximum size or already
    flagged: the Sedimenting branch runs and the size stays. *)
Lemma sedimenting_step (p : Particle) (d v c : Q) :
  type p = crystal -> 6 <= size p \/ sedimenting p = true ->
  let p' := update Math_sin p d v c in
  type p' = crystal
  /\ sedimenting p' = true
  /\ size p' = size p
  /\ sedimentingVy p p'
  /\ 1.5 <= vy p'.
Proof.
  intros Htype Hcond p'. subst p'.
  assert (Hgrow : negb (sedimenting p) && Qltb (vy p) 0 && Qltb (size p) 6 = false).
  { destruct Hcond as [Hsize | Hflag].
    - apply Qltb_false in Hsize. rewrite Hsize. apply andb_false_r.
    - rewrite Hflag. reflexivity. }
  assert (Hflag' : (if Qltb (y p) (c - 130) || Qleb 6 (size p)
                    then true else sedimenting p) = true).
  { destruct Hcond as [Hsize | Hflag].
    - apply Qleb_true in Hsize. rewrite Hsize, orb_true_r. reflexivity.
    - rewrite Hflag. now destruct (_ || _). }
  unfold update, sedimentingVy. rewrite Htype, Hgrow, Hflag'.
  cbn [type sedimenting size vy].
  split; [ reflexivity | split; [ reflexivity | split; [ reflexivity | split ] ] ].
  - reflexivity.
  - destruct (Qltb (vy p + 0.05 * size p * 1.5) 1.5) eqn:E.
    + lra.
    + now apply Qltb_false in E.
Qed.

Lemma updates_snoc (p : Particle) (frames : list (Q * Q * Q)) (d v c : Q) :
  updates Math_sin p (frames ++ [(d, v, c)]) = update Math_sin (updates Math_sin p frames) d v c.
Proof. unfold updates. rewrite fold_left_app. reflexivity. Qed.

Lemma sedimenting_kept (frames : list (Q * Q * Q)) (p : Particle) :
  type p = crystal -> 6 <= size p \/ sedimenting p = true ->
  let q := updates Math_sin p frames in
  type q = crystal
  /\ (6 <= size q \/ sedimenting q = true)
  /\ size q = size p
  /\ (frames <> [] -> sedimenting q = true /\ 1.5 <= vy q).
Proof.
  induction frames as [ | [[d v] c] frames IH ] using rev_ind; intros Htype Hcond q.
  - subst q. change (updates Math_sin p []) with p.
    split; [ exact Htype | split; [ exact Hcond | split; [ reflexivity | ] ] ].
    intro H. contradiction.
  - subst q. rewrite updates_snoc.
    destruct (IH Htype Hcond) as (Ht & Hc & Hs & _).
    destruct (sedimenting_step (updates Math_sin p frames) d v c Ht Hc)
      as (Ht' & Hf' & Hs' & _ & Hv').
    split; [ exact Ht' | split; [ now right | split ] ].
    + now rewrite Hs'.
    + intros _. split; assumption.
Qed.

(** C8. A crystal whose size has reached 6, or whose sedimenting flag is
    set, takes the Sedimenting branch on every later update, whatever the
    fluid velocity and the bed centre of that update and of those before it:
    the flag is set after it, the size is what it was, and the vertical speed
    is the one that branch assigns, at least 1.5 downward. *)
Theorem sedimenting_is_terminal (p : Particle) (frames : list (Q * Q * Q))
    (d v c : Q) :
  type p = crystal -> 6 <= size p \/ sedimenting p = true ->
  let q := updates Math_sin p frames in
  let q' := update Math_sin q d v c in
  type q' = crystal
  /\ sedimenting q' = true
  /\ size q' = size p
  /\ sedimentingVy q q'
  /\ 1.5 <= vy q'.
Proof.
  intros Htype Hcond q q'. subst q q'.
  destruct (sedimenting_kept frames p Htype Hcond) as (Ht & Hc & Hs & _).
  destruct (sedimenting_step (updates Math_sin p frames) d v c Ht Hc)
    as (Ht' & Hf' & Hs' & Hvy & Hv').
  repeat split; try assumption.
  now rewrite Hs'.
Qed.

End CrystalFacts.

Lemma sedimenting_is_terminal_witness :
  let p := {| x := 10; y := 250; size := 6; type := crystal; vx := 0.25;
              vy := -1; alpha := 1; color := "#00f2ff"; sedimenting := false |} in
  let q := updates (fun _ => 0) p [(16, 4.5, 300); (17, 9, 300)] in
  let q' := update (fun _ => 0) q 16 45 300 in
  type q' = crystal
  /\ sedimenting q' = true
  /\ size q' = size p
  /\ sedimentingVy q q'
  /\ 1.5 <= vy q'.
Proof.
  apply (sedimenting_is_terminal (fun _ => 0)
           {| x := 10; y := 250; size := 6; type := crystal; vx := 0.25;
              vy := -1; alpha := 1; color := "#00f2ff"; sedimenting := false |}
           [(16, 4.5, 300); (17, 9, 300)] 16 45 300).
  - reflexivity.
  - left. vm_compute. discriminate.
Defined.

(** ** The pass over the particles *)

Lemma forEachFrom_beyond {A : Type} (cb : A -> nat -> list A -> list A)
    (n k : nat) (arr : list A) :
  (length arr <= k)%nat -> forEachFrom n k cb arr = arr.
Proof.
  revert k. induction n as [ | n IH ]; intros k H; cbn [forEachFrom].
  - reflexivity.
  - destruct (nth_error arr k) as [a | ] eqn:E.
    + assert (k < length arr)%nat by (apply nth_error_Some; congruence). lia.
    + apply IH. lia.
Qed.

Lemma store_middle {A : Type} (pre : list A) (a b : A) (rest : list A) :
  store (length pre) b (pre ++ a :: rest) = pre ++ b :: rest.
Proof. induction pre as [ | c pre IH ]; cbn [store length app]; congruence. Qed.

Lemma splice1_middle {A : Type} (pre : list A) (a : A) (rest : list A) :
  splice1 (length pre) (pre ++ a :: rest) = pre ++ rest.
Proof.
  unfold splice1.
  rewrite firstn_app, firstn_all, Nat.sub_diag. cbn [firstn].
  rewrite app_nil_r.
  replace (S (length pre)) with (length (pre ++ [a]))
    by (rewrite length_app; cbn [length]; lia).
  replace (pre ++ a :: rest) with ((pre ++ [a]) ++ rest)
    by (rewrite <- app_assoc; reflexivity).
  rewrite skipn_app, skipn_all, Nat.sub_diag. reflexivity.
Qed.

Section PassFacts.

Variable Math_sin : Q -> Q.
Variables dt fluidVelocity centerY : Q.

(** The loop, from any index on: what lies before the index stays, what
    lies from the index on is swept. *)
Lemma forEachFrom_sweep (n : nat) (pre rest : list Particle) :
  (length rest <= n)%nat ->
  forEachFrom n (length pre) (visit Math_sin dt fluidVelocity centerY) (pre ++ rest)
  = pre ++ sweep Math_sin dt fluidVelocity centerY rest.
Proof.
  revert pre rest. induction n as [ | n IH ]; intros pre rest Hlen.
  - destruct rest; [ reflexivity | cbn [length] in Hlen; lia ].
  - cbn [forEachFrom].
    destruct rest as [ | p rest ].
    + rewrite app_nil_r.
      replace (nth_error pre (length pre)) with (@None Particle)
        by (symmetry; apply nth_error_None; lia).
      cbn [sweep]. rewrite app_nil_r. apply forEachFrom_beyond. lia.
    + replace (nth_error (pre ++ p :: rest) (length pre)) with (Some p)
        by (rewrite nth_error_app2, Nat.sub_diag by lia; reflexivity).
      cbn [length] in Hlen. unfold visit at 2. rewrite store_middle.
      cbn [sweep].
      destruct (isOutOfBounds _ centerY || isDead _).
      * rewrite splice1_middle.
        destruct rest as [ | q rest ].
        -- rewrite app_nil_r. apply forEachFrom_beyond. lia.
        -- replace (S (length pre)) with (length (pre ++ [q]))
             by (rewrite length_app; cbn [length]; lia).
           replace (pre ++ q :: rest) with ((pre ++ [q]) ++ rest)
             by (rewrite <- app_assoc; reflexivity).
           rewrite IH by (cbn [length] in Hlen; lia).
           rewrite <- app_assoc. reflexivity.
      * replace (S (length pre))
          with (length (pre ++ [update Math_sin p dt fluidVelocity centerY]))
          by (rewrite length_app; cbn [length]; lia).
        replace (pre ++ update Math_sin p dt fluidVelocity centerY :: rest)
          with ((pre ++ [update Math_sin p dt fluidVelocity centerY]) ++ rest)
          by (rewrite <- app_assoc; reflexivity).
        rewrite IH by lia.
        rewrite <- app_assoc. reflexivity.
Qed.

(** When no particle is removed the sweep is the plain map. *)
Lemma sweep_no_removal (particles : list Particle) :
  Forall (fun p => let p' := update Math_sin p dt fluidVelocity centerY in
                   isOutOfBounds p' centerY || isDead p' = false) particles ->
  sweep Math_sin dt fluidVelocity centerY particles
  = map (fun p => update Math_sin p dt fluidVelocity centerY) particles.
Proof.
  induction 1 as [ | p rest Hp _ IH ]; cbn [sweep map].
  - reflexivity.
  - cbv zeta in Hp. rewrite Hp, IH. reflexivity.
Qed.

End PassFacts.

(** What [updateParticles] does to the population before it spawns: the
    particle right after a removed one is left as it was, neither advanced
    nor checked in this call. *)
Lemma updatePass_is_sweep (Math_sin : Q -> Q) (particles : list Particle)
    (dt speed flowRate centerY : Q) :
  updatePass Math_sin particles dt speed flowRate centerY
  = sweep Math_sin dt ((flowRate / 100) * speed) centerY particles.
Proof.
  unfold updatePass, forEach.
  exact (forEachFrom_sweep Math_sin dt _ centerY (length particles) [] particles
           (le_n _)).
Qed.

(** With no removal in the call, the pass advances every particle once,
    as described. *)
Lemma updatePass_no_removal (Math_sin : Q -> Q) (particles : list Particle)
    (dt speed flowRate centerY : Q) :
  Forall (fun p => let p' := update Math_sin p dt ((flowRate / 100) * speed) centerY in
                   isOutOfBounds p' centerY || isDead p' = false) particles ->
  updatePass Math_sin particles dt speed flowRate centerY
  = updatePassSpec Math_sin particles dt speed flowRate centerY.
Proof.
  intro H. rewrite updatePass_is_sweep, sweep_no_removal by exact H.
  unfold updatePassSpec. symmetry.
  induction H as [ | p rest Hp _ IH ]; cbn [map filter].
  - reflexivity.
  - cbv zeta in Hp. rewrite Hp. cbn [negb]. now rewrite IH.
Qed.

(** C4, at the input where it fails. Two crystals spawned at the inlet of
    a bed centred at 300 and a call with the centre at 100, as after the
    canvas shrinks: both are out of bounds once advanced. The first is
    advanced and removed; the second moves into its place, is never visited,
    and is still in the population, as it was, when the call returns. The
    described pass leaves nobody. *)
Theorem updatePass_skips_neighbour (Math_sin : Q -> Q) :
  let p1 := newParticle 310 480 1 crystal (1 # 2) (1 # 2) in
  let p2 := newParticle 330 480 1 crystal (1 # 4) (3 # 4) in
  let noSpawn := fun _ : nat => 1 # 2 in
  updateParticles Math_sin [p1; p2] 16 1 450 300 100 noSpawn = [p2]
  /\ isOutOfBounds (update Math_sin p1 16 ((450 / 100) * 1) 100) 100 = true
  /\ isOutOfBounds (update Math_sin p2 16 ((450 / 100) * 1) 100) 100 = true
  /\ updatePassSpec Math_sin [p1; p2] 16 1 450 100 = [].
Proof.
  cbv zeta. repeat split.
Qed.

(** * Further properties of the engine *)

(** ** The ledger *)

(** X1. In every state the engine can reach, whatever the arguments of the
    calls, the variable cost is the reagent used, in tons, at 1100, the
    savings are the fluoride taken in, in tons, at 7237.5, and the fixed
    cost is the simulated days at 4800. *)
Theorem ledger_invariants (s : ChemistryEngine) :
  reachable s ->
  totalVariableCost s == totalCaCl2Used s / 1000000 * 1100
  /\ totalSavings s == totalFInput s / 1000000 * 7237.5
  /\ totalFixedCost s == simTimeMs s / Chem.msPerDay * 4800.
Proof.
  induction 1 as [ | s _ _ | s v _ IH _ _ | s i _ (IHv & IHs & IHf) ].
  - repeat split.
  - repeat split.
  - exact IH.
  - unfold tickWith. split; [ | split ].
    + rewrite totalVariableCost_eq, totalCaCl2Used_eq, IHv.
      unfold CONFIG.MARKET.COST_CACL2. field.
    + rewrite totalSavings_eq, totalFInput_eq, IHs.
      unfold CONFIG.MARKET.AVOIDED_COST_LIME_SLUDGE. field.
    + rewrite totalFixedCost_eq. reflexivity.
Qed.

Lemma ledger_invariants_witness :
  let s := tickWith (tickWith Chem.constructor (mkInputs 450 50 16 1 (1 # 4)))
                    (mkInputs 300 20 17 2 (3 # 4)) in
  totalVariableCost s == totalCaCl2Used s / 1000000 * 1100
  /\ totalSavings s == totalFInput s / 1000000 * 7237.5
  /\ totalFixedCost s == simTimeMs s / Chem.msPerDay * 4800.
Proof.
  apply (ledger_invariants
           (tickWith (tickWith Chem.constructor (mkInputs 450 50 16 1 (1 # 4)))
                     (mkInputs 300 20 17 2 (3 # 4)))).
  apply reach_tick. apply reach_tick. apply reach_constructor.
Defined.

Lemma operated_reachable (s : ChemistryEngine) : operated s -> reachable s.
Proof.
  induction 1 as [ | s _ IH | s v _ IH Hlo Hhi | s i _ IH _ ].
  - apply reach_constructor.
  - now apply reach_reset.
  - now apply reach_purity.
  - now apply reach_tick.
Qed.




(** ** Time: frames, the simulated clock and the mass balance *)

(** X3. In exact arithmetic, two calls in a row with the same flow,
    concentration and speed leave the six running totals, the simulated time
    and the fixed cost where one call over the sum of the two deltas leaves
    them. Nothing is said of the history, the day index or the pH, which the
    cut can change. *)
Theorem frame_split_independent (s : ChemistryEngine)
    (f p d1 d2 sp r1 r2 r : Q) :
  let two := Chem.tick (Chem.tick s f p d1 sp r1) f p d2 sp r2 in
  let one := Chem.tick s f p (d1 + d2) sp r in
  totalFInput two == totalFInput one
  /\ totalFluoriteOutput two == totalFluoriteOutput one
  /\ totalCaCl2Used two == totalCaCl2Used one
  /\ totalRevenue two == totalRevenue one
  /\ totalVariableCost two == totalVariableCost one
  /\ totalSavings two == totalSavings one
  /\ simTimeMs two == simTimeMs one
  /\ totalFixedCost two == totalFixedCost one.
Proof.
  intros two one. subst two one.
  assert (Htime : simTimeMs (Chem.tick (Chem.tick s f p d1 sp r1) f p d2 sp r2)
                  == simTimeMs (Chem.tick s f p (d1 + d2) sp r)).
  { rewrite !simTimeMs_eq. field. }
  repeat match goal with |- _ /\ _ => split end.
  - rewrite !totalFInput_eq, !massF_eq. field.
  - rewrite !totalFluoriteOutput_eq, !massFluorite_eq, !massF_eq. field.
  - rewrite !totalCaCl2Used_eq, !massCaCl2_eq, !massF_eq. field.
  - rewrite !totalRevenue_eq, !massFluorite_eq, !massF_eq, !purityMix_eq. field.
  - rewrite !totalVariableCost_eq, !massCaCl2_eq, !massF_eq. field.
  - rewrite !totalSavings_eq, !massF_eq. field.
  - exact Htime.
  - rewrite !totalFixedCost_eq, Htime. reflexivity.
Qed.

(** In binary64 a call of 1 ms followed by one of 5999 ms, at speed 1,
    leaves the simulated time just under one day, where a single call of
    6000 ms leaves it at one day exactly: at a day boundary the cut of the
    elapsed time decides the day index. *)
Example binary64_day_boundary :
  let two := Binary64.advance (Binary64.advance 0%float 1%float 1%float)
                              5999%float 1%float in
  let one := Binary64.advance 0%float 6000%float 1%float in
  PrimFloat.ltb two Binary64.msPerDay = true
  /\ PrimFloat.eqb one Binary64.msPerDay = true.
Proof. vm_compute. repeat split. Qed.

Lemma simTimeMs_tickWith (s : ChemistryEngine) (i : Inputs) :
  simTimeMs (tickWith s i) == simTimeMs s + 14400 * (dt i * speed i).
Proof. unfold tickWith. rewrite simTimeMs_eq. field. Qed.

Lemma massF_per_hour (s : ChemistryEngine) (i : Inputs) :
  totalFInput (tickWith s i) - totalFInput s
  == flowRate i * ppmF i * ((simTimeMs (tickWith s i) - simTimeMs s) / 3600000).
Proof.
  rewrite simTimeMs_tickWith. unfold tickWith.
  rewrite totalFInput_eq, massF_eq. field.
Qed.

(** X4. In exact arithmetic, along any run the simulated clock advances
    by 14400 times the real milliseconds scaled by the speed, four simulated
    hours for a real second at speed 1; with the flow and the concentration
    held at [f] and [p], the fluoride taken in over the run is [f * p] per
    simulated hour. *)
Theorem clock_and_mass_balance (calls : list Inputs) (s : ChemistryEngine)
    (f p : Q) :
  simTimeMs (run s calls) == simTimeMs s + 14400 * scaledTime calls
  /\ (Forall (fun i => flowRate i == f /\ ppmF i == p) calls ->
      totalFInput (run s calls) - totalFInput s
      == f * p * ((simTimeMs (run s calls) - simTimeMs s) / 3600000)).
Proof.
  revert s. induction calls as [ | i calls IH ]; intro s.
  - change (run s []) with s. cbn [scaledTime]. split; [ ring | intros _; field ].
  - rewrite run_cons. destruct (IH (tickWith s i)) as [IHt IHm].
    assert (Ht : simTimeMs (run (tickWith s i) calls)
                 == simTimeMs s + 14400 * scaledTime (i :: calls)).
    { rewrite IHt, simTimeMs_tickWith. cbn [scaledTime]. ring. }
    split; [ exact Ht | ].
    intro Hall. inversion Hall as [ | ? ? [Hf Hp] Hrest ]; subst.
    specialize (IHm Hrest).
    pose proof (massF_per_hour s i) as Hstep.
    rewrite Hf, Hp in Hstep.
    set (a := totalFInput (run (tickWith s i) calls)) in *.
    set (b := totalFInput (tickWith s i)) in *.
    set (t2 := simTimeMs (run (tickWith s i) calls)) in *.
    set (t1 := simTimeMs (tickWith s i)) in *.
    clearbody a b t2 t1.
    assert (E : a - totalFInput s == (a - b) + (b - totalFInput s)) by ring.
    rewrite E, IHm, Hstep. field.
Qed.

Lemma clock_and_mass_balance_witness :
  let calls := [ mkInputs 450 50 16 1 (1 # 4); mkInputs 450 50 1000 2 (3 # 4) ] in
  totalFInput (run Chem.constructor calls) - totalFInput Chem.constructor
  == 450 * 50 * ((simTimeMs (run Chem.constructor calls)
                  - simTimeMs Chem.constructor) / 3600000).
Proof.
  apply (proj2 (clock_and_mass_balance
                  [ mkInputs 450 50 16 1 (1 # 4); mkInputs 450 50 1000 2 (3 # 4) ]
                  Chem.constructor 450 50)).
  repeat constructor.
Defined.

(** ** The history, the latest snapshot and the window reference *)

Lemma lastSnapshot_snoc (h : list Snapshot) (snap : Snapshot) :
  lastSnapshot (h ++ [snap]) = Some snap.
Proof.
  unfold lastSnapshot. rewrite length_app. cbn [length].
  replace (length h + 1 - 1)%nat with (length h) by lia.
  rewrite nth_error_app2, Nat.sub_diag by lia. reflexivity.
Qed.

Lemma pushSnapshot_cases (h : list Snapshot) (snap : Snapshot) :
  (length h <= 40)%nat ->
  ((length h < 40)%nat -> Chem.pushSnapshot h snap = h ++ [snap])
  /\ (length h = 40%nat -> Chem.pushSnapshot h snap = tl h ++ [snap]).
Proof.
  intro Hlen. unfold Chem.pushSnapshot.
  rewrite length_app. cbn [length]. split; intro H.
  - replace (40 <? length h + 1)%nat with false; [ reflexivity | ].
    symmetry. apply Nat.ltb_ge. lia.
  - replace (40 <? length h + 1)%nat with true
      by (symmetry; apply Nat.ltb_lt; lia).
    destruct h as [ | a h ]; [ discriminate H | reflexivity ].
Qed.

Lemma lastSnapshot_push (h : list Snapshot) (snap : Snapshot) :
  (length h <= 40)%nat -> lastSnapshot (Chem.pushSnapshot h snap) = Some snap.
Proof.
  intro Hlen. destruct (pushSnapshot_cases h snap Hlen) as [Hlt Heq].
  destruct (Nat.eq_dec (length h) 40) as [E | E].
  - rewrite (Heq E). apply lastSnapshot_snoc.
  - rewrite Hlt by lia. apply lastSnapshot_snoc.
Qed.

Lemma historyInv_reachable (s : ChemistryEngine) : reachable s -> historyInv s.
Proof.
  induction 1 as [ | s _ _ | s v _ IH _ _ | s i _ IH ].
  - exact historyInv_constructor.
  - exact historyInv_constructor.
  - exact IH.
  - now apply historyInv_tick.
Qed.

Lemma latestLinked_reachable (s : ChemistryEngine) : reachable s -> latestLinked s.
Proof.
  induction 1 as [ | s _ _ | s v _ IH _ _ | s i Hs [IHlink IHpos] ].
  - split; [ left; split; reflexivity | constructor ].
  - split; [ left; split; reflexivity | constructor ].
  - exact IH.
  - destruct (historyInv_reachable s Hs) as (Hlen & _ & _).
    assert (Hlow : (-1 <= lastSnapshotDay s)%Z)
      by (destruct IHlink as [[_ E] | (h & _ & _ & Hnn)]; lia).
    unfold tickWith, latestLinked.
    destruct (tick_history_cases s (flowRate i) (ppmF i) (dt i) (speed i) (random i))
      as [ (_ & Hlt & Hh & Hl) | (_ & Hh & Hl) ]; rewrite Hh, Hl.
    + split.
      * right. eexists. split; [ now apply lastSnapshot_push | ].
        split; [ reflexivity | lia ].
      * apply pushSnapshot_Forall; [ exact IHpos | ].
        unfold snapshotOf. cbn [day]. lia.
    + split; assumption.
Qed.

(** X5. In every reachable state the history is empty exactly while
    [lastSnapshotDay] is still -1; otherwise its latest snapshot carries the
    day [lastSnapshotDay], which is not negative, and no snapshot has a
    negative day. *)
Theorem latest_snapshot_is_lastSnapshotDay (s : ChemistryEngine) :
  reachable s ->
  ((history s = [] /\ lastSnapshotDay s = (-1)%Z)
   \/ (exists h, lastSnapshot (history s) = Some h
                 /\ day h = lastSnapshotDay s
                 /\ (0 <= lastSnapshotDay s)%Z))
  /\ Forall (fun h => (0 <= day h)%Z) (history s).
Proof. exact (latestLinked_reachable s). Qed.

Lemma latest_snapshot_is_lastSnapshotDay_witness :
  let s := tickWith Chem.constructor (mkInputs 450 50 8000 1 (1 # 2)) in
  ((history s = [] /\ lastSnapshotDay s = (-1)%Z)
   \/ (exists h, lastSnapshot (history s) = Some h
                 /\ day h = lastSnapshotDay s
                 /\ (0 <= lastSnapshotDay s)%Z))
  /\ Forall (fun h => (0 <= day h)%Z) (history s).
Proof.
  apply (latest_snapshot_is_lastSnapshotDay
           (tickWith Chem.constructor (mkInputs 450 50 8000 1 (1 # 2)))).
  apply reach_tick. apply reach_constructor.
Defined.

(** X6. A call that takes no snapshot leaves the history alone; one that
    takes a snapshot appends it at the end, and drops the oldest snapshot
    exactly when the history already held 40. The history never gets
    shorter. *)
Theorem snapshot_appended_oldest_evicted (s : ChemistryEngine) (i : Inputs) :
  reachable s ->
  let s' := tickWith s i in
  (snapshotTaken s s' = false -> history s' = history s)
  /\ (snapshotTaken s s' = true ->
      ((length (history s) < 40)%nat ->
       history s' = history s ++ [snapshotOf s'])
      /\ (length (history s) = 40%nat ->
          history s' = tl (history s) ++ [snapshotOf s']))
  /\ (length (history s) <= length (history s'))%nat.
Proof.
  intros Hs s'. subst s'. unfold tickWith.
  destruct (historyInv_reachable s Hs) as (Hlen & _ & _).
  set (s' := Chem.tick s (flowRate i) (ppmF i) (dt i) (speed i) (random i)).
  destruct (pushSnapshot_cases (history s) (snapshotOf s') Hlen) as [Hlt Heq].
  destruct (tick_history_cases s (flowRate i) (ppmF i) (dt i) (speed i) (random i))
    as [ (Ht & _ & Hh & _) | (Ht & Hh & _) ]; fold s' in Ht, Hh; rewrite Ht.
  - split; [ discriminate | split ].
    + intros _. split; intro H; rewrite Hh; [ now apply Hlt | now apply Heq ].
    + rewrite Hh. destruct (Nat.eq_dec (length (history s)) 40) as [E | E].
      * rewrite (Heq E), length_app. cbn [length].
        destruct (history s); [ discriminate E | cbn [tl length]; lia ].
      * rewrite Hlt by lia. rewrite length_app. lia.
  - split; [ intros _; exact Hh | split; [ discriminate | rewrite Hh; lia ] ].
Qed.

Lemma snapshot_appended_oldest_evicted_witness :
  let s := tickWith Chem.constructor (mkInputs 450 50 16 1 (1 # 2)) in
  let s' := tickWith s (mkInputs 450 50 8000 1 (1 # 2)) in
  (length (history s) <= length (history s'))%nat.
Proof.
  refine (proj2 (proj2 (snapshot_appended_oldest_evicted
           (tickWith Chem.constructor (mkInputs 450 50 16 1 (1 # 2)))
           (mkInputs 450 50 8000 1 (1 # 2)) _))).
  apply reach_tick. apply reach_constructor.
Defined.

Lemma lastSnapshot_In (h : list Snapshot) (now : Snapshot) :
  lastSnapshot h = Some now -> In now h.
Proof. unfold lastSnapshot. apply nth_error_In. Qed.

Lemma find_first_match {A : Type} (f : A -> bool) (l1 l2 : list A) (a : A) :
  f a = true ->
  exists b, find f (l1 ++ a :: l2) = Some b /\ (b = a \/ In b l1).
Proof.
  intro Ha. induction l1 as [ | c l1 IH ]; cbn [app find].
  - rewrite Ha. exists a. split; [ reflexivity | now left ].
  - destruct (f c) eqn:Ec.
    + exists c. split; [ reflexivity | right; now left ].
    + destruct IH as (b & Hb & [E | Hin]); exists b; split; trivial.
      * now left.
      * right. now right.
Qed.

Lemma StronglySorted_app_lt (l1 l2 : list Snapshot) (a b : Snapshot) :
  StronglySorted dayLt (l1 ++ l2) -> In a l1 -> In b l2 -> dayLt a b.
Proof.
  induction l1 as [ | c l1 IH ]; intros Hs Ha Hb; [ contradiction | ].
  cbn [app] in Hs. inversion Hs as [ | ? ? Hrest Hall ]; subst.
  destruct Ha as [E | Ha].
  - subst c. rewrite Forall_forall in Hall. apply Hall.
    apply in_or_app. now right.
  - now apply IH.
Qed.

(** The window reference in a history that is sorted and bounded by the
    day of its latest snapshot. *)
Lemma window_reference (h : list Snapshot) (now : Snapshot) :
  StronglySorted dayLt h ->
  Forall (fun a => (day a <= day now)%Z) h ->
  In now h ->
  exists prev,
    find (fun a => (day now - 30 <=? day a)%Z) h = Some prev
    /\ referenceSnapshot h (day now - 30) = Done prev
    /\ In prev h
    /\ (0 <= day now - day prev <= 30)%Z.
Proof.
  intros Hsorted Hbound Hin.
  unfold referenceSnapshot.
  destruct (find (fun a => (day now - 30 <=? day a)%Z) h) as [prev | ] eqn:E.
  - exists prev. apply find_some in E. destruct E as [Hp Hge].
    apply Z.leb_le in Hge. rewrite Forall_forall in Hbound.
    specialize (Hbound prev Hp).
    repeat split; trivial; lia.
  - exfalso. pose proof (find_none _ _ E now Hin) as H.
    apply Z.leb_gt in H. lia.
Qed.

(** X7. In every reachable state with a snapshot, the window reference
    [history.find(h => h.day >= now.day - 30)] is always found, so the
    fallback [history[0]] is never taken; the reference is a snapshot of the
    history and the span [now.day - prev.day] lies between 0 and 30 days. *)
Theorem window_span_within_30_days (chem : ChemistryEngine) (now : Snapshot) :
  reachable chem ->
  lastSnapshot (history chem) = Some now ->
  exists prev,
    find (fun a => (day now - 30 <=? day a)%Z) (history chem) = Some prev
    /\ referenceSnapshot (history chem) (day now - 30) = Done prev
    /\ In prev (history chem)
    /\ (0 <= day now - day prev <= 30)%Z.
Proof.
  intros Hs Hnow.
  destruct (historyInv_reachable chem Hs) as (_ & Hsorted & Hbound).
  destruct (latestLinked_reachable chem Hs) as [[[Hnil _] | (h & Hh & Hday & _)] _].
  - rewrite Hnil in Hnow. discriminate Hnow.
  - rewrite Hh in Hnow. injection Hnow as ->.
    apply window_reference; [ exact Hsorted | | now apply lastSnapshot_In ].
    rewrite Hday. exact Hbound.
Qed.

Lemma window_span_within_30_days_witness :
  let chem := run Chem.constructor
                [ mkInputs 450 50 16 1 (1 # 2); mkInputs 450 50 8000 1 (1 # 2) ] in
  exists prev,
    find (fun a => (day (snapshotOf chem) - 30 <=? day a)%Z) (history chem)
    = Some prev
    /\ referenceSnapshot (history chem) (day (snapshotOf chem) - 30) = Done prev
    /\ In prev (history chem)
    /\ (0 <= day (snapshotOf chem) - day prev <= 30)%Z.
Proof.
  apply (window_span_within_30_days
           (run Chem.constructor
              [ mkInputs 450 50 16 1 (1 # 2); mkInputs 450 50 8000 1 (1 # 2) ])
           (snapshotOf (run Chem.constructor
              [ mkInputs 450 50 16 1 (1 # 2); mkInputs 450 50 8000 1 (1 # 2) ]))).
  - apply (reach_tick _ (mkInputs 450 50 8000 1 (1 # 2))).
    apply (reach_tick _ (mkInputs 450 50 16 1 (1 # 2))).
    apply reach_constructor.
  - reflexivity.
Defined.

(** X8. In a reachable state with three snapshots or more whose two
    latest are at most 30 days apart, the span of the window is positive and
    at most 30, so [updateUI] reports the rescaled window: the revenue and
    profit deltas between the latest snapshot and the reference, times
    [30 / span], a factor of at least 1. *)
Theorem window_span_positive (chem : ChemistryEngine)
    (older : list Snapshot) (before now : Snapshot) :
  reachable chem ->
  history chem = older ++ [before; now] ->
  older <> [] ->
  (day now - day before <= 30)%Z ->
  exists rep prev,
    updateUI chem = Done rep
    /\ referenceSnapshot (history chem) (day now - 30) = Done prev
    /\ (0 < day now - day prev <= 30)%Z
    /\ 1 <= 30 / inject_Z (day now - day prev)
    /\ window rep
       = {| rev30 := (revenue now - revenue prev)
                     * (30 / inject_Z (day now - day prev));
            pro30 := (snapshotProfit now - snapshotProfit prev)
                     * (30 / inject_Z (day now - day prev)) |}.
Proof.
  intros Hs Hh Hmore Hclose.
  destruct (historyInv_reachable chem Hs) as (_ & Hsorted & _).
  assert (Hbn : dayLt before now).
  { rewrite Hh in Hsorted.
    apply (StronglySorted_app_lt (older ++ [before]) [now]).
    - rewrite <- app_assoc. exact Hsorted.
    - apply in_or_app. right. now left.
    - now left. }
  unfold dayLt in Hbn.
  destruct (find_first_match (fun a => (day now - 30 <=? day a)%Z) older [now] before)
    as (prev & Hfind & Hprev); [ apply Z.leb_le; lia | ].
  assert (Hle : (day prev <= day before)%Z).
  { destruct Hprev as [-> | Hin]; [ lia | ].
    assert (dayLt prev before).
    { rewrite Hh in Hsorted.
      apply (StronglySorted_app_lt older [before; now]); trivial. now left. }
    unfold dayLt in *. lia. }
  assert (Hge : (day now - 30 <= day prev)%Z).
  { apply find_some in Hfind. destruct Hfind as [_ H]. now apply Z.leb_le in H. }
  assert (Href : referenceSnapshot (history chem) (day now - 30) = Done prev).
  { rewrite Hh. unfold referenceSnapshot. rewrite Hfind. reflexivity. }
  assert (Hlen : (2 < length (history chem))%nat).
  { rewrite Hh, length_app. cbn [length].
    destruct older; [ contradiction | cbn [length]; lia ]. }
  assert (Hnow : element (history chem) (length (history chem) - 1) = Done now).
  { unfold element. fold (lastSnapshot (history chem)). rewrite Hh.
    replace (older ++ [before; now]) with ((older ++ [before]) ++ [now])
      by (rewrite <- app_assoc; reflexivity).
    rewrite lastSnapshot_snoc. reflexivity. }
  destruct (updateUI_eq chem) as (w & Hw & Hui).
  destruct (windowBlock_cases chem
              ((totalRevenue chem
                - (totalVariableCost chem + orZero (totalFixedCost chem)))
               + totalSavings chem)
              (simTimeMs chem / Chem.msPerDay) {| rev30 := 0; pro30 := 0 |})
    as (w' & Hw' & Hmany & _).
  assert (E : w' = w) by congruence. subst w'.
  destruct (Hmany Hlen) as (now' & prev' & Hnow' & Href' & Hpos & _).
  assert (En : now' = now) by congruence. subst now'.
  assert (Ep : prev' = prev) by congruence. subst prev'.
  eexists. exists prev.
  split; [ exact Hui | split; [ exact Href | split; [ lia | split ] ] ].
  - apply Qle_shift_div_l.
    + change 0 with (inject_Z 0). rewrite <- Zlt_Qlt. lia.
    + change 30 with (inject_Z 30). rewrite Qmult_1_l, <- Zle_Qle. lia.
  - cbn [window]. apply Hpos. lia.
Qed.

Lemma window_span_positive_witness :
  let s1 := tickWith Chem.constructor (mkInputs 450 50 16 1 (1 # 2)) in
  let s2 := tickWith s1 (mkInputs 450 50 8000 1 (1 # 2)) in
  let chem := tickWith s2 (mkInputs 450 50 6000 1 (1 # 2)) in
  exists rep prev,
    updateUI chem = Done rep
    /\ referenceSnapshot (history chem) (day (snapshotOf chem) - 30) = Done prev
    /\ (0 < day (snapshotOf chem) - day prev <= 30)%Z
    /\ 1 <= 30 / inject_Z (day (snapshotOf chem) - day prev)
    /\ window rep
       = {| rev30 := (revenue (snapshotOf chem) - revenue prev)
                     * (30 / inject_Z (day (snapshotOf chem) - day prev));
            pro30 := (snapshotProfit (snapshotOf chem) - snapshotProfit prev)
                     * (30 / inject_Z (day (snapshotOf chem) - day prev)) |}.
Proof.
  apply (window_span_positive
           (tickWith (tickWith (tickWith Chem.constructor
                                  (mkInputs 450 50 16 1 (1 # 2)))
                               (mkInputs 450 50 8000 1 (1 # 2)))
                     (mkInputs 450 50 6000 1 (1 # 2)))
           [ snapshotOf (tickWith Chem.constructor (mkInputs 450 50 16 1 (1 # 2))) ]
           (snapshotOf (tickWith (tickWith Chem.constructor
                                    (mkInputs 450 50 16 1 (1 # 2)))
                                 (mkInputs 450 50 8000 1 (1 # 2))))
           (snapshotOf (tickWith (tickWith (tickWith Chem.constructor
                                              (mkInputs 450 50 16 1 (1 # 2)))
                                           (mkInputs 450 50 8000 1 (1 # 2)))
                                 (mkInputs 450 50 6000 1 (1 # 2))))).
  - apply reach_tick. apply reach_tick. apply reach_tick. apply reach_constructor.
  - reflexivity.
  - discriminate.
  - vm_compute. discriminate.
Defined.

(** ** The pH under noise and the efficiency figure *)

Lemma ph_call_band (s : ChemistryEngine) (i : Inputs) :
  unitInterval (random i) ->
  7 <= currentPH s -> currentPH s <= 8.3 ->
  7 <= currentPH (tickWith s i) /\ currentPH (tickWith s i) <= 8.3.
Proof.
  intros [Hr0 Hr1] Hlo Hhi. unfold tickWith. rewrite currentPH_eq.
  unfold CONFIG.PHYSICS.TARGET_PH. split; lra.
Qed.

Lemma ph_run_band (calls : list Inputs) (s : ChemistryEngine) :
  Forall (fun i => unitInterval (random i)) calls ->
  7 <= currentPH s -> currentPH s <= 8.3 ->
  7 <= currentPH (run s calls) /\ currentPH (run s calls) <= 8.3.
Proof.
  intro H. revert s. induction H as [ | i calls Hi _ IH ]; intros s Hlo Hhi.
  - now split.
  - rewrite run_cons.
    destruct (ph_call_band s i Hi Hlo Hhi) as [Hlo' Hhi']. now apply IH.
Qed.

(** X9. With every [Math.random()] value in [0, 1), a pH between 7 and
    8.3 stays between 7 and 8.3 through any run of calls; the pH of a new or
    reset engine, 7, is in that band. *)
Theorem ph_stays_in_band (calls : list Inputs) (s : ChemistryEngine) :
  Forall (fun i => unitInterval (random i)) calls ->
  7 <= currentPH s -> currentPH s <= 8.3 ->
  7 <= currentPH (run s calls) /\ currentPH (run s calls) <= 8.3.
Proof. exact (ph_run_band calls s). Qed.

Lemma ph_stays_in_band_witness :
  let calls := [ mkInputs 450 50 16 1 0; mkInputs 450 50 16 1 (99 # 100) ] in
  7 <= currentPH (run Chem.constructor calls)
  /\ currentPH (run Chem.constructor calls) <= 8.3.
Proof.
  apply (ph_stays_in_band
           [ mkInputs 450 50 16 1 0; mkInputs 450 50 16 1 (99 # 100) ]
           Chem.constructor).
  - repeat constructor; vm_compute; discriminate || reflexivity.
  - vm_compute; discriminate.
  - vm_compute; discriminate.
Defined.




Lemma efficiency_range (chem : ChemistryEngine) :
  0 <= efficiency chem /\ efficiency chem <= 99.8.
Proof.
  unfold efficiency.
  pose proof (Qabs_nonneg (currentPH chem - 8.2)) as Hnn.
  destruct (Qleb (99.8 - Qabs (currentPH chem - 8.2) * 15) 0) eqn:E.
  - split; [ apply Qle_refl | vm_compute; discriminate ].
  - assert (H : ~ 99.8 - Qabs (currentPH chem - 8.2) * 15 <= 0).
    { intro H. apply Qleb_true in H. congruence. }
    apply Qnot_le_lt in H. split; lra.
Qed.

(** X11. The efficiency shown is always between 0 and 99.8; through any
    run of calls from a new or reset engine, with every [Math.random()]
    value in [0, 1), it is at least 81.8. *)
Theorem efficiency_display_bounds (s0 : ChemistryEngine) (calls : list Inputs) :
  (forall chem, 0 <= efficiency chem /\ efficiency chem <= 99.8)
  /\ (fresh s0 -> Forall (fun i => unitInterval (random i)) calls ->
      81.8 <= efficiency (run s0 calls)).
Proof.
  split; [ exact efficiency_range | ].
  intros Hfresh Hcalls. apply fresh_is_constructor in Hfresh. subst s0.
  destruct (ph_run_band calls Chem.constructor Hcalls) as [Hlo Hhi];
    [ vm_compute; discriminate | vm_compute; discriminate | ].
  unfold efficiency.
  set (pH := currentPH (run Chem.constructor calls)) in *. clearbody pH.
  assert (Habs : Qabs (pH - 8.2) <= 1.2) by (apply Qabs_Qle_condition; split; lra).
  destruct (Qleb (99.8 - Qabs (pH - 8.2) * 15) 0) eqn:E.
  - apply Qleb_true in E. lra.
  - lra.
Qed.

Lemma efficiency_display_bounds_witness :
  81.8 <= efficiency (run (Chem.reset Chem.constructor)
                          [ mkInputs 450 50 16 1 0; mkInputs 450 50 16 1 (99 # 100) ]).
Proof.
  apply (proj2 (efficiency_display_bounds (Chem.reset Chem.constructor)
                  [ mkInputs 450 50 16 1 0; mkInputs 450 50 16 1 (99 # 100) ])).
  - right. exists Chem.constructor. reflexivity.
  - repeat constructor; vm_compute; discriminate || reflexivity.
Defined.

(** ** The clock shown *)

Lemma Qfloor_unit (q : Q) : 0 <= q -> q < 1 -> Qfloor q = 0%Z.
Proof.
  intros Hlo Hhi.
  assert (H0 : (0 <= Qfloor q)%Z)
    by (change 0%Z with (Qfloor 0); now apply Qfloor_resp_le).
  assert (H1 : (Qfloor q < 1)%Z).
  { rewrite Zlt_Qlt. pose proof (Qfloor_le q). change (inject_Z 1) with 1. lra. }
  lia.
Qed.

Lemma Qfloor_below (q : Q) (n : Z) : q < inject_Z n -> (Qfloor q < n)%Z.
Proof.
  intro H. rewrite Zlt_Qlt. pose proof (Qfloor_le q). lra.
Qed.

Lemma jsRem_small (a b : Q) : 0 < b -> 0 <= a -> a < b -> jsRem a b == a.
Proof.
  intros Hb Hlo Hhi. unfold jsRem, Qtrunc.
  assert (Hq0 : 0 <= a / b) by (apply Qle_shift_div_l; lra).
  assert (Hq1 : a / b < 1) by (apply Qlt_shift_div_r; lra).
  replace (Qleb 0 (a / b)) with true by (symmetry; now apply Qleb_true).
  rewrite (Qfloor_unit _ Hq0 Hq1). change (inject_Z 0) with 0. ring.
Qed.

Lemma clock_days (chem : ChemistryEngine) :
  Qfloor (simTimeMs chem / 1000 / (24 * 3600)) = currentDay chem.
Proof.
  unfold currentDay, Chem.msPerDay. apply Qfloor_comp. field.
Qed.

(** X12. For a simulated time that is not negative the clock shows, on
    the first simulated day, the whole hours elapsed, a number from 0 to 23
    followed by "h"; from the second day on it shows the day count modulo 30
    followed by "d", preceded by the count of 30-day months and "m " once 30
    days have passed. The day it counts is the day of the snapshots. *)
Theorem clock_display (chem : ChemistryEngine) :
  0 <= simTimeMs chem ->
  let d := currentDay chem in
  timeStr chem
  = (if (d =? 0)%Z then showNumber (wholeHours chem) ++ "h"
     else (if (30 <=? d)%Z then showNumber (d / 30) ++ "m " else "")
          ++ showNumber (d mod 30) ++ "d")%string
  /\ (d = 0%Z -> (0 <= wholeHours chem < 24)%Z).
Proof.
  intros Hnn d.
  pose proof (currentDay_nonneg chem Hnn) as Hd. fold d in Hd.
  assert (Hfirst : d = 0%Z ->
            0 <= simTimeMs chem / 1000 / 3600 /\ simTimeMs chem / 1000 / 3600 < 24).
  { intro E. unfold d, currentDay in E.
    pose proof (Qlt_floor (simTimeMs chem / Chem.msPerDay)) as Hlt.
    rewrite E in Hlt. change (inject_Z (0 + 1)) with 1 in Hlt.
    assert (Hms : simTimeMs chem < Chem.msPerDay).
    { assert (Ex : simTimeMs chem == simTimeMs chem / Chem.msPerDay * Chem.msPerDay)
        by (unfold Chem.msPerDay; field).
      assert (Hpos : 0 < Chem.msPerDay) by reflexivity.
      pose proof (Qmult_lt_compat_r _ _ _ Hpos Hlt) as H2.
      rewrite <- Ex, Qmult_1_l in H2. exact H2. }
    unfold Chem.msPerDay in Hms.
    assert (Eh : simTimeMs chem / 1000 / 3600 == simTimeMs chem * (1 # 3600000))
      by field.
    rewrite Eh. split; lra. }
  split.
  - unfold timeStr. rewrite clock_days. fold d.
    rewrite Z.rem_mod_nonneg by lia.
    assert (Hmonths : (0 <? d / 30)%Z = (30 <=? d)%Z).
    { destruct (30 <=? d)%Z eqn:E.
      - apply Z.leb_le in E. apply Z.ltb_lt. apply Z.div_str_pos. lia.
      - apply Z.leb_gt in E. apply Z.ltb_ge. rewrite Z.div_small by lia. lia. }
    assert (Hzero : ((d / 30 =? 0) && (d mod 30 =? 0))%Z = (d =? 0)%Z).
    { pose proof (Z.div_mod d 30 ltac:(lia)) as Hdm.
      pose proof (Z.mod_pos_bound d 30 ltac:(lia)) as Hm.
      destruct (d =? 0)%Z eqn:E.
      - apply Z.eqb_eq in E. rewrite E. reflexivity.
      - apply Z.eqb_neq in E. apply andb_false_iff.
        destruct (Z.eq_dec (d / 30) 0) as [E1 | E1].
        + right. apply Z.eqb_neq. lia.
        + left. now apply Z.eqb_neq. }
    rewrite Hmonths, Hzero.
    destruct (d =? 0)%Z eqn:E; [ | reflexivity ].
    apply Z.eqb_eq in E. destruct (Hfirst E) as [Hh0 Hh1].
    assert (Ej : jsRem (simTimeMs chem / 1000 / 3600) 24
                 == simTimeMs chem / 3600000).
    { rewrite (jsRem_small _ 24 ltac:(reflexivity) Hh0 Hh1). field. }
    unfold wholeHours. rewrite (Qfloor_comp _ _ Ej). reflexivity.
  - intro E. destruct (Hfirst E) as [Hh0 Hh1].
    assert (Eh : simTimeMs chem / 3600000 == simTimeMs chem / 1000 / 3600) by field.
    unfold wholeHours. rewrite (Qfloor_comp _ _ Eh). split.
    + change 0%Z with (Qfloor 0). now apply Qfloor_resp_le.
    + apply Qfloor_below. exact Hh1.
Qed.

Lemma clock_display_witness :
  let chem := tickWith Chem.constructor (mkInputs 450 50 3000 1 (1 # 2)) in
  (0 <= wholeHours chem < 24)%Z.
Proof.
  refine (proj2 (clock_display
                   (tickWith Chem.constructor (mkInputs 450 50 3000 1 (1 # 2)))
                   _) _).
  - vm_compute. discriminate.
  - vm_compute. reflexivity.
Defined.

(** Three seconds at speed 1 are twelve simulated hours; sixty-six days
    and some hours read as two months and six days. *)
Example clock_samples :
  timeStr (tickWith Chem.constructor (mkInputs 450 50 3000 1 (1 # 2))) = "12h"%string
  /\ timeStr (tickWith Chem.constructor (mkInputs 450 50 400000 1 (1 # 2)))
     = "2m 6d"%string
  /\ timeStr (tickWith Chem.constructor (mkInputs 450 50 60000 1 (1 # 2)))
     = "10d"%string.
Proof. vm_compute. repeat split. Qed.

(** ** Particles through their updates *)

Section ParticleLife.

Variable Math_sin : Q -> Q.

Lemma update_fluid (p : Particle) (d v c : Q) :
  type p = fluid ->
  let q := update Math_sin p d v c in
  type q = fluid /\ alpha q = alpha p - 0.01 /\ y q = y p - v * 2
  /\ size q = size p.
Proof.
  intros Ht q. subst q. unfold update. rewrite Ht. repeat split.
Qed.

(** X13. A fluid particle loses exactly 0.01 of opacity in every update
    and nothing else changes its opacity: after [n] updates, whatever their
    arguments, a fluid particle built with opacity 1 has opacity
    [1 - n / 100], and [isDead] holds exactly from the hundredth update on. *)
Theorem fluid_fades_in_100_updates (p : Particle) (frames : list (Q * Q * Q)) :
  type p = fluid ->
  let q := updates Math_sin p frames in
  let n := inject_Z (Z.of_nat (length frames)) in
  type q = fluid
  /\ alpha q == alpha p - n / 100
  /\ (alpha p == 1 -> (isDead q = true <-> (100 <= length frames)%nat)).
Proof.
  intros Ht q n. subst q n.
  assert (H : type (updates Math_sin p frames) = fluid
              /\ alpha (updates Math_sin p frames)
                 == alpha p - inject_Z (Z.of_nat (length frames)) / 100).
  { induction frames as [ | [[d v] c] frames IH ] using rev_ind.
    - split; [ exact Ht | cbn; field ].
    - destruct IH as [IHt IHa]. rewrite updates_snoc.
      destruct (update_fluid (updates Math_sin p frames) d v c IHt)
        as (Ht' & Ha' & _).
      split; [ exact Ht' | ].
      rewrite Ha', IHa, length_app. cbn [length].
      rewrite Nat2Z.inj_add, inject_Z_plus. change (inject_Z (Z.of_nat 1)) with 1.
      field. }
  destruct H as [Htq Ha]. split; [ exact Htq | split; [ exact Ha | ] ].
  intro H1. unfold isDead. rewrite Qleb_true, Ha, H1.
  set (k := length frames).
  assert (Eq : 1 - inject_Z (Z.of_nat k) / 100
               == (100 - inject_Z (Z.of_nat k)) * (1 # 100)) by field.
  rewrite Eq.
  split; intro H.
  - assert (Hk : inject_Z 100 <= inject_Z (Z.of_nat k))
      by (change (inject_Z 100) with 100; lra).
    rewrite <- Zle_Qle in Hk. lia.
  - assert (Hk : inject_Z 100 <= inject_Z (Z.of_nat k))
      by (rewrite <- Zle_Qle; lia).
    change (inject_Z 100) with 100 in Hk. lra.
Qed.




(** One update changes the size only of a rising crystal below the
    maximum, and then by 0.015. *)
Lemma update_size_cases (p : Particle) (d v c : Q) :
  size (update Math_sin p d v c) = size p
  \/ (type p = crystal /\ sedimenting p = false /\ vy p < 0 /\ size p < 6
      /\ size (update Math_sin p d v c) = size p + 0.015).
Proof.
  unfold update. destruct (type p) eqn:Ht; cbn [size]; [ | now left ].
  destruct (negb (sedimenting p) && Qltb (vy p) 0 && Qltb (size p) 6) eqn:E;
    [ | now left ].
  right. apply andb_true_iff in E. destruct E as [E Hsize].
  apply andb_true_iff in E. destruct E as [Hsed Hvy].
  apply negb_true_iff in Hsed. apply Qltb_true in Hvy. apply Qltb_true in Hsize.
  repeat split; assumption.
Qed.

(** X15. An update changes the size only of a crystal that is not
    sedimenting, is moving up and is smaller than 6, and then adds exactly
    0.015; so a size below 6.015 stays below 6.015 through any sequence of
    updates, and a size never shrinks. *)
Theorem crystal_growth_guarded (p : Particle) (d v c : Q)
    (frames : list (Q * Q * Q)) :
  (size (update Math_sin p d v c) = size p
   \/ (type p = crystal /\ sedimenting p = false /\ vy p < 0 /\ size p < 6
       /\ size (update Math_sin p d v c) = size p + 0.015))
  /\ (size p < 6.015 -> size (updates Math_sin p frames) < 6.015)
  /\ size p <= size (updates Math_sin p frames).
Proof.
  split; [ apply update_size_cases | ].
  induction frames as [ | [[d' v'] c'] frames [IHb IHm] ] using rev_ind.
  - split; [ trivial | apply Qle_refl ].
  - rewrite updates_snoc.
    destruct (update_size_cases (updates Math_sin p frames) d' v' c')
      as [E | (_ & _ & _ & Hlt & E)]; rewrite E.
    + split; assumption.
    + split; [ intros _; lra | lra ].
Qed.

End ParticleLife.


Lemma crystal_growth_guarded_witness :
  let p := newParticle 310 480 1 crystal (1 # 4) (3 # 4) in
  size (updates (fun _ => 0) p [(16, 4.5, 300); (17, 9, 300)]) < 6.015.
Proof.
  apply (proj1 (proj2 (crystal_growth_guarded (fun _ => 0)
                         (newParticle 310 480 1 crystal (1 # 4) (3 # 4))
                         16 4.5 300 [(16, 4.5, 300); (17, 9, 300)]))).
  reflexivity.
Defined.

Lemma fluid_fades_in_100_updates_witness :
  let p := newParticle 310 480 2 fluid (1 # 4) (3 # 4) in
  let q := updates (fun _ => 0) p [(16, 4.5, 300); (17, 9, 300)] in
  type q = fluid
  /\ alpha q == alpha p - inject_Z (Z.of_nat 2) / 100
  /\ (alpha p == 1 -> (isDead q = true <-> (100 <= 2)%nat)).
Proof.
  apply (fluid_fades_in_100_updates (fun _ => 0)
           (newParticle 310 480 2 fluid (1 # 4) (3 # 4))
           [(16, 4.5, 300); (17, 9, 300)]).
  reflexivity.
Defined.

(** ** Sedimenting crystals leave the bed *)

Lemma update_crystal_y (Math_sin : Q -> Q) (p : Particle) (d v c : Q) :
  type p = crystal ->
  y (update Math_sin p d v c) = y p + vy (update Math_sin p d v c).
Proof. intro Ht. unfold update. rewrite Ht. reflexivity. Qed.

(** X16. A crystal that is at the maximum size or flagged sinks by at
    least 1.5 in every update: after [n] updates it is at least [1.5 * n]
    lower, and once that exceeds its distance to the lower bound
    [centerY + 220] it is out of bounds. *)
Theorem sedimenting_crystal_leaves (Math_sin : Q -> Q) (p : Particle)
    (frames : list (Q * Q * Q)) :
  type p = crystal -> 6 <= size p \/ sedimenting p = true ->
  let q := updates Math_sin p frames in
  let n := inject_Z (Z.of_nat (length frames)) in
  y p + 1.5 * n <= y q
  /\ (forall centerY, centerY + 220 - y p < 1.5 * n ->
      isOutOfBounds q centerY = true).
Proof.
  intros Ht Hcond q n. subst q n.
  assert (H : y p + 1.5 * inject_Z (Z.of_nat (length frames))
              <= y (updates Math_sin p frames)).
  { induction frames as [ | [[d v] c] frames IH ] using rev_ind.
    - change (updates Math_sin p []) with p. cbn [length].
      change (inject_Z (Z.of_nat 0)) with 0. lra.
    - destruct (sedimenting_kept Math_sin frames p Ht Hcond) as (Ht' & Hc' & _).
      destruct (sedimenting_step Math_sin (updates Math_sin p frames) d v c Ht' Hc')
        as (_ & _ & _ & _ & Hv).
      rewrite updates_snoc, (update_crystal_y Math_sin _ d v c Ht').
      rewrite length_app. cbn [length].
      rewrite Nat2Z.inj_add, inject_Z_plus. change (inject_Z (Z.of_nat 1)) with 1.
      lra. }
  split; [ exact H | ].
  intros centerY Hfar. unfold isOutOfBounds.
  apply orb_true_iff. left. apply Qltb_true. lra.
Qed.

Lemma sedimenting_crystal_leaves_witness :
  let p := {| x := 10; y := 250; size := 6; type := crystal; vx := 0.25;
              vy := -1; alpha := 1; color := "#00f2ff"; sedimenting := false |} in
  let q := updates (fun _ => 0) p [(16, 4.5, 300); (17, 9, 300)] in
  y p + 1.5 * inject_Z (Z.of_nat 2) <= y q
  /\ (forall centerY, centerY + 220 - y p < 1.5 * inject_Z (Z.of_nat 2) ->
      isOutOfBounds q centerY = true).
Proof.
  apply (sedimenting_crystal_leaves (fun _ => 0)
           {| x := 10; y := 250; size := 6; type := crystal; vx := 0.25;
              vy := -1; alpha := 1; color := "#00f2ff"; sedimenting := false |}
           [(16, 4.5, 300); (17, 9, 300)]).
  - reflexivity.
  - left. vm_compute. discriminate.
Defined.

(** ** Spawning *)

(** X17. With every [Math.random()] value in [0, 1), [spawnParticle]
    appends one particle and leaves the others as they are. The new particle
    sits at the inlet height [centerY + 180], within 60 of [centerX]; it is
    neither out of bounds nor dead nor sedimenting; a crystal starts with
    size 1 and a vertical speed in [0, 2), a fluid particle with a size in
    [1, 4) and a vertical speed in (-3, 0]. *)
Theorem spawned_particle_is_live (particles : list Particle)
    (centerX centerY : Q) (rnd : nat -> Q) :
  (forall n, unitInterval (rnd n)) ->
  exists q,
    spawnParticle particles centerX centerY rnd = particles ++ [q]
    /\ centerX - 60 <= x q /\ x q < centerX + 60
    /\ y q = centerY + 180
    /\ isOutOfBounds q centerY = false
    /\ isDead q = false
    /\ sedimenting q = false
    /\ -(1 # 2) <= vx q /\ vx q < 1 # 2
    /\ (type q = crystal -> size q = 1 /\ 0 <= vy q /\ vy q < 2)
    /\ (type q = fluid -> 1 <= size q /\ size q < 4 /\ -3 < vy q /\ vy q <= 0).
Proof.
  intro Hrnd.
  destruct (Hrnd 0%nat) as [H0a H0b]. destruct (Hrnd 2%nat) as [H2a H2b].
  destruct (Hrnd 3%nat) as [H3a H3b]. destruct (Hrnd 4%nat) as [H4a H4b].
  assert (Hin : forall q, y q = centerY + 180 -> isOutOfBounds q centerY = false).
  { intros q Hy. unfold isOutOfBounds. rewrite Hy.
    apply orb_false_iff. split; apply Qltb_false; lra. }
  unfold spawnParticle.
  destruct (Qltb 0.3 (rnd 1%nat)); eexists; (split; [ reflexivity | ]);
    unfold newParticle; cbn [x y size type vx vy alpha sedimenting];
    (split; [ lra | split; [ lra | split; [ reflexivity | ] ] ]);
    (split; [ apply Hin; reflexivity | ]);
    (split; [ reflexivity | split; [ reflexivity | ] ]);
    (split; [ lra | split; [ lra | ] ]).
  - split; [ intros _; split; [ reflexivity | split; lra ] | discriminate ].
  - split; [ discriminate | intros _; repeat split; lra ].
Qed.

Lemma spawned_particle_is_live_witness :
  exists q,
    spawnParticle [] 400 300 (fun _ => 1 # 2) = [] ++ [q]
    /\ 400 - 60 <= x q /\ x q < 400 + 60
    /\ y q = 300 + 180
    /\ isOutOfBounds q 300 = false
    /\ isDead q = false
    /\ sedimenting q = false
    /\ -(1 # 2) <= vx q /\ vx q < 1 # 2
    /\ (type q = crystal -> size q = 1 /\ 0 <= vy q /\ vy q < 2)
    /\ (type q = fluid -> 1 <= size q /\ size q < 4 /\ -3 < vy q /\ vy q <= 0).
Proof.
  apply (spawned_particle_is_live [] 400 300 (fun _ => 1 # 2)).
  intro n. split; [ vm_compute; discriminate | reflexivity ].
Defined.

(** ** The population through [updateParticles] *)

Section Population.

Variable Math_sin : Q -> Q.
Variables dt fluidVelocity centerY : Q.

Lemma sweep_length (n : nat) (ps : list Particle) :
  (length ps <= n)%nat ->
  (length (sweep Math_sin dt fluidVelocity centerY ps) <= length ps
   /\ length ps <= 2 * length (sweep Math_sin dt fluidVelocity centerY ps) + 1)%nat.
Proof.
  revert ps. induction n as [ | n IH ]; intros ps Hn.
  - destruct ps; [ cbn; lia | cbn [length] in Hn; lia ].
  - destruct ps as [ | p rest ]; [ cbn; lia | ].
    cbn [sweep]. cbn [length] in Hn.
    destruct (isOutOfBounds _ centerY || isDead _).
    + destruct rest as [ | q rest' ]; [ cbn; lia | ].
      cbn [length] in *. destruct (IH rest') as [H1 H2]; lia.
    + cbn [length]. destruct (IH rest) as [H1 H2]; lia.
Qed.

Lemma sweep_survivors (n : nat) (ps : list Particle) :
  (length ps <= n)%nat ->
  Forall (fun q => In q ps
                   \/ exists p, In p ps
                        /\ q = update Math_sin p dt fluidVelocity centerY
                        /\ isOutOfBounds q centerY || isDead q = false)
         (sweep Math_sin dt fluidVelocity centerY ps).
Proof.
  revert ps. induction n as [ | n IH ]; intros ps Hn.
  - destruct ps; [ constructor | cbn [length] in Hn; lia ].
  - destruct ps as [ | p rest ]; [ constructor | ].
    cbn [sweep]. cbn [length] in Hn.
    destruct (isOutOfBounds _ centerY || isDead _) eqn:E.
    + destruct rest as [ | q rest' ]; [ constructor | ].
      cbn [length] in Hn. constructor.
      * left. right. now left.
      * eapply Forall_impl; [ | apply (IH rest'); lia ].
        intros a [Ha | (b & Hb & Hab)].
        -- left. right. now right.
        -- right. exists b. split; [ right; now right | exact Hab ].
    + constructor.
      * right. exists p. split; [ now left | split; [ reflexivity | exact E ] ].
      * eapply Forall_impl; [ | apply (IH rest); lia ].
        intros a [Ha | (b & Hb & Hab)].
        -- left. now right.
        -- right. exists b. split; [ now right | exact Hab ].
Qed.

End Population.

(** X18. The pass of [updateParticles] over the population never adds a
    particle and removes at most every other one, so more than half of a
    population of out-of-bounds particles can never go in one call; the call
    as a whole adds at most one particle. *)
Theorem population_size_bounds (Math_sin : Q -> Q) (particles : list Particle)
    (dt speed flowRate centerX centerY : Q) (rnd : nat -> Q) :
  let passed := updatePass Math_sin particles dt speed flowRate centerY in
  let after := updateParticles Math_sin particles dt speed flowRate centerX centerY rnd in
  (length passed <= length particles)%nat
  /\ (length particles <= 2 * length passed + 1)%nat
  /\ (length passed <= length after <= length passed + 1)%nat.
Proof.
  intros passed after. subst passed after.
  unfold updateParticles.
  rewrite updatePass_is_sweep.
  destruct (sweep_length Math_sin dt (flowRate / 100 * speed) centerY
              (length particles) particles (le_n _)) as [H1 H2].
  split; [ exact H1 | split; [ exact H2 | ] ].
  destruct (Qltb (rnd 0%nat) (0.3 * speed)); [ | lia ].
  unfold spawnParticle.
  destruct (Qltb 0.3 _); rewrite length_app; cbn [length]; lia.
Qed.

(** X19. Every particle left by the pass is either one of the population
    as it was, not advanced in this call, or one of the population
    advanced once and found neither out of bounds nor dead. *)
Theorem pass_survivors (Math_sin : Q -> Q) (particles : list Particle)
    (dt speed flowRate centerY : Q) :
  let v := (flowRate / 100) * speed in
  Forall (fun q => In q particles
                   \/ exists p, In p particles
                        /\ q = update Math_sin p dt v centerY
                        /\ isOutOfBounds q centerY || isDead q = false)
         (updatePass Math_sin particles dt speed flowRate centerY).
Proof.
  intro v. subst v. rewrite updatePass_is_sweep.
  apply (sweep_survivors Math_sin dt _ centerY (length particles)). lia.
Qed.

(** X20. With [Math.random()] in [0, 1), a call at a speed of 10/3 or
    more always spawns a particle, and a call at a speed of 0 or less never
    does. *)
Theorem spawn_decided_by_speed (Math_sin : Q -> Q) (particles : list Particle)
    (dt speed flowRate centerX centerY : Q) (rnd : nat -> Q) :
  unitInterval (rnd 0%nat) ->
  let passed := updatePass Math_sin particles dt speed flowRate centerY in
  let after := updateParticles Math_sin particles dt speed flowRate centerX centerY rnd in
  (10 # 3 <= speed ->
   after = spawnParticle passed centerX centerY (fun n => rnd (S n))
   /\ length after = S (length passed))
  /\ (speed <= 0 -> after = passed).
Proof.
  intros [H0 H1] passed after. subst passed after.
  unfold updateParticles. split; intro Hsp.
  - replace (Qltb (rnd 0%nat) (0.3 * speed)) with true
      by (symmetry; apply Qltb_true; lra).
    split; [ reflexivity | ].
    unfold spawnParticle.
    destruct (Qltb 0.3 _); rewrite length_app; cbn [length]; lia.
  - replace (Qltb (rnd 0%nat) (0.3 * speed)) with false
      by (symmetry; apply Qltb_false; lra).
    reflexivity.
Qed.

Lemma spawn_decided_by_speed_witness :
  let passed := updatePass (fun _ => 0) [] 16 4 450 300 in
  let after := updateParticles (fun _ => 0) [] 16 4 450 400 300 (fun _ => 1 # 2) in
  length after = S (length passed).
Proof.
  refine (proj2 (proj1 (spawn_decided_by_speed (fun _ => 0) [] 16 4 450 400 300
                          (fun _ => 1 # 2) _) _)).
  - split; [ vm_compute; discriminate | reflexivity ].
  - vm_compute. discriminate.
Defined.

(** ** The frame loop *)

Section Frames.

Variable Math_sin : Q -> Q.

Lemma loops_snoc (sim : Sim.Simulation) (frames : list Sim.Frame) (fr : Sim.Frame) :
  Sim.loops Math_sin sim (frames ++ [fr])
  = fst (Sim.loop Math_sin (Sim.loops Math_sin sim frames) fr).
Proof. unfold Sim.loops. rewrite fold_left_app. reflexivity. Qed.

Lemma loop_paused (sim : Sim.Simulation) (fr : Sim.Frame) :
  Sim.running (Sim.state sim) = false ->
  Sim.loop Math_sin sim fr
  = ({| Sim.chem := Sim.chem sim; Sim.particles := Sim.particles sim;
        Sim.state := Sim.state sim; Sim.lastTime := Sim.time fr |}, None).
Proof. intro H. unfold Sim.loop. rewrite H. reflexivity. Qed.

Lemma loop_running (sim : Sim.Simulation) (fr : Sim.Frame) :
  Sim.running (Sim.state sim) = true ->
  let sim' := fst (Sim.loop Math_sin sim fr) in
  Sim.chem sim'
  = Chem.tick (Sim.chem sim) (Sim.flowRate (Sim.state sim))
      (Sim.ppmF (Sim.state sim)) (Sim.time fr - Sim.lastTime sim)
      (Sim.speed (Sim.state sim)) (Sim.rnd fr 0%nat)
  /\ Sim.state sim' = Sim.state sim
  /\ Sim.lastTime sim' = Sim.time fr.
Proof.
  intros H sim'. subst sim'. unfold Sim.loop. rewrite H.
  unfold Chem.tick.
  destruct (Chem.calculateReaction _ _ _ _ _ _) as [chem' results].
  repeat split.
Qed.

(** X21. While the system is stopped, frames change neither the engine
    nor the particles nor the controls; they only move [lastTime] to the time
    of the latest frame. So on the first frame after the system is started
    again the simulated clock advances by the time since the previous frame
    only, not by the time spent stopped. *)
Theorem stopped_frames_freeze_the_engine (sim : Sim.Simulation)
    (frames : list Sim.Frame) (fr : Sim.Frame) :
  Sim.running (Sim.state sim) = false ->
  let idle := Sim.loops Math_sin sim frames in
  let resumed := fst (Sim.loop Math_sin (Sim.toggle idle) fr) in
  Sim.chem idle = Sim.chem sim
  /\ Sim.particles idle = Sim.particles sim
  /\ Sim.state idle = Sim.state sim
  /\ Sim.lastTime idle = last (map Sim.time frames) (Sim.lastTime sim)
  /\ simTimeMs (Sim.chem resumed)
     == simTimeMs (Sim.chem sim)
        + 14400 * ((Sim.time fr - last (map Sim.time frames) (Sim.lastTime sim))
                   * Sim.speed (Sim.state sim)).
Proof.
  intros Hstop idle resumed.
  assert (H : Sim.chem idle = Sim.chem sim
              /\ Sim.particles idle = Sim.particles sim
              /\ Sim.state idle = Sim.state sim
              /\ Sim.lastTime idle = last (map Sim.time frames) (Sim.lastTime sim)).
  { subst idle. clear resumed.
    induction frames as [ | fr' frames (IHc & IHp & IHs & IHl) ] using rev_ind.
    - repeat split.
    - rewrite loops_snoc, loop_paused by (rewrite IHs; exact Hstop).
      cbn [fst Sim.chem Sim.particles Sim.state Sim.lastTime].
      rewrite map_app. cbn [map]. rewrite last_last. repeat split; assumption. }
  destruct H as (Hc & Hp & Hs & Hl).
  split; [ exact Hc | split; [ exact Hp | split; [ exact Hs | split; [ exact Hl | ] ] ] ].
  subst resumed.
  destruct (loop_running (Sim.toggle idle) fr) as (Hchem & _ & _).
  { cbn [Sim.toggle Sim.state Sim.running]. rewrite Hs, Hstop. reflexivity. }
  rewrite Hchem. cbn [Sim.toggle Sim.state Sim.chem Sim.lastTime Sim.flowRate
                      Sim.ppmF Sim.speed].
  rewrite simTimeMs_eq, Hc, Hl, Hs. field.
Qed.

(** Real time scaled by the speed between two frames. *)
Lemma loops_running (sim : Sim.Simulation) (frames : list Sim.Frame) :
  Sim.running (Sim.state sim) = true ->
  let sim' := Sim.loops Math_sin sim frames in
  Sim.state sim' = Sim.state sim
  /\ Sim.lastTime sim' = last (map Sim.time frames) (Sim.lastTime sim)
  /\ simTimeMs (Sim.chem sim')
     == simTimeMs (Sim.chem sim)
        + 14400 * ((Sim.lastTime sim' - Sim.lastTime sim) * Sim.speed (Sim.state sim))
  /\ totalFInput (Sim.chem sim')
     == totalFInput (Sim.chem sim)
        + Sim.flowRate (Sim.state sim) * Sim.ppmF (Sim.state sim)
          * ((Sim.lastTime sim' - Sim.lastTime sim) * Sim.speed (Sim.state sim))
          * (4 # 1000).
Proof.
  intros Hrun sim'. subst sim'.
  induction frames as [ | fr frames (IHs & IHl & IHt & IHm) ] using rev_ind.
  - change (Sim.loops Math_sin sim []) with sim.
    split; [ reflexivity | split; [ reflexivity | split; ring ] ].
  - rewrite loops_snoc.
    destruct (loop_running (Sim.loops Math_sin sim frames) fr)
      as (Hchem & Hstate & Hlast); [ rewrite IHs; exact Hrun | ].
    rewrite Hchem, Hstate, Hlast, map_app. cbn [map]. rewrite last_last.
    split; [ exact IHs | split; [ reflexivity | ] ].
    rewrite simTimeMs_eq, totalFInput_eq, massF_eq, IHt, IHm, IHs.
    split; field.
Qed.

(** X22. In exact arithmetic, while the system runs with the controls
    untouched, after any number of frames the simulated time has advanced by
    14400 times the real time between the first and the last frame times the
    speed, and the fluoride taken in by flow times concentration times that
    span times 4/1000, however many frames the span was cut into. *)
Theorem running_frames_telescope (sim : Sim.Simulation) (frames : list Sim.Frame) :
  Sim.running (Sim.state sim) = true ->
  let sim' := Sim.loops Math_sin sim frames in
  let span := last (map Sim.time frames) (Sim.lastTime sim) - Sim.lastTime sim in
  Sim.state sim' = Sim.state sim
  /\ simTimeMs (Sim.chem sim')
     == simTimeMs (Sim.chem sim) + 14400 * (span * Sim.speed (Sim.state sim))
  /\ totalFInput (Sim.chem sim')
     == totalFInput (Sim.chem sim)
        + Sim.flowRate (Sim.state sim) * Sim.ppmF (Sim.state sim)
          * (span * Sim.speed (Sim.state sim)) * (4 # 1000).
Proof.
  intros Hrun sim' span. subst sim' span.
  destruct (loops_running sim frames Hrun) as (Hs & Hl & Ht & Hm).
  rewrite <- Hl.
  split; [ exact Hs | split; [ exact Ht | exact Hm ] ].
Qed.

End Frames.

Lemma stopped_frames_freeze_the_engine_witness :
  let sim := Sim.constructor 1000 in
  let frames := [ Sim.mkFrame 1016 800 600 (fun _ => 1 # 2);
                  Sim.mkFrame 9000 800 600 (fun _ => 1 # 2) ] in
  let idle := Sim.loops (fun _ => 0) sim frames in
  Sim.chem idle = Sim.chem sim.
Proof.
  refine (proj1 (stopped_frames_freeze_the_engine (fun _ => 0) (Sim.constructor 1000)
           [ Sim.mkFrame 1016 800 600 (fun _ => 1 # 2);
             Sim.mkFrame 9000 800 600 (fun _ => 1 # 2) ]
           (Sim.mkFrame 9016 800 600 (fun _ => 1 # 2)) _)).
  reflexivity.
Defined.

Lemma running_frames_telescope_witness :
  let sim := Sim.toggle (Sim.constructor 1000) in
  let frames := [ Sim.mkFrame 1016 800 600 (fun _ => 1 # 2);
                  Sim.mkFrame 1033 800 600 (fun _ => 1 # 2) ] in
  simTimeMs (Sim.chem (Sim.loops (fun _ => 0) sim frames))
  == simTimeMs (Sim.chem sim)
     + 14400 * ((last (map Sim.time frames) (Sim.lastTime sim) - Sim.lastTime sim)
                * Sim.speed (Sim.state sim)).
Proof.
  apply (proj1 (proj2 (running_frames_telescope (fun _ => 0)
                         (Sim.toggle (Sim.constructor 1000))
                         [ Sim.mkFrame 1016 800 600 (fun _ => 1 # 2);
                           Sim.mkFrame 1033 800 600 (fun _ => 1 # 2) ]
                         eq_refl))).
Defined.

(** ** The snapshot day and the clock *)

Lemma simTimeMs_grows (s : ChemistryEngine) (i : Inputs) :
  controlsInRange i -> simTimeMs s <= simTimeMs (tickWith s i).
Proof.
  intros (_ & _ & Hd & Hsp). rewrite simTimeMs_tickWith.
  assert (0 <= dt i * speed i) by (apply Qmult_le_0_compat; lra).
  lra.
Qed.

Lemma currentDay_mono (s s' : ChemistryEngine) :
  simTimeMs s <= simTimeMs s' -> (currentDay s <= currentDay s')%Z.
Proof.
  intro H. unfold currentDay. apply Qfloor_resp_le.
  unfold Qdiv. apply Qmult_le_compat_r; [ exact H | ].
  vm_compute. discriminate.
Qed.

Lemma operated_clock (s : ChemistryEngine) :
  operated s ->
  0 <= simTimeMs s
  /\ ((lastSnapshotDay s = (-1)%Z /\ history s = [])
      \/ lastSnapshotDay s = currentDay s).
Proof.
  induction 1 as [ | s _ _ | s v _ IH _ _ | s i Hs [IHt IHd] Hi ].
  - split; [ apply Qle_refl | left; split; reflexivity ].
  - split; [ apply Qle_refl | left; split; reflexivity ].
  - exact IH.
  - pose proof (simTimeMs_grows s i Hi) as Hgrow.
    split; [ lra | right ].
    pose proof (currentDay_mono s (tickWith s i) Hgrow) as Hmono.
    pose proof (currentDay_nonneg s IHt) as Hnn.
    unfold tickWith in *. rewrite lastSnapshotDay_eq.
    destruct (lastSnapshotDay s <? currentDay _)%Z eqn:E; [ reflexivity | ].
    apply Z.ltb_ge in E. destruct IHd as [[Hl _] | Hl]; lia.
Qed.

(** X23. With every call in range the simulated time never goes back,
    and after any call [lastSnapshotDay] is the current simulated day: the
    latest snapshot always belongs to the day the clock shows. *)
Theorem latest_snapshot_is_today (s : ChemistryEngine) (i : Inputs) :
  operated s -> controlsInRange i ->
  let s' := tickWith s i in
  simTimeMs s <= simTimeMs s'
  /\ lastSnapshotDay s' = currentDay s'
  /\ exists now, lastSnapshot (history s') = Some now /\ day now = currentDay s'.
Proof.
  intros Hs Hi s'. subst s'.
  destruct (operated_clock (tickWith s i) (operated_tick s i Hs Hi))
    as [_ [[Hl Hh] | Hl]].
  - exfalso.
    destruct (latestLinked_reachable (tickWith s i)
                (reach_tick s i (operated_reachable s Hs))) as [Hlink _].
    destruct (operated_clock s Hs) as [Ht _].
    pose proof (simTimeMs_grows s i Hi) as Hgrow.
    assert (Hnn : (0 <= currentDay (tickWith s i))%Z)
      by (apply currentDay_nonneg; lra).
    unfold tickWith in *. rewrite lastSnapshotDay_eq in Hl.
    destruct (lastSnapshotDay s <? currentDay _)%Z eqn:E; [ lia | ].
    apply Z.ltb_ge in E.
    destruct (latestLinked_reachable s (operated_reachable s Hs))
      as [[[_ Hm] | (_ & _ & _ & Hm)] _]; lia.
  - split; [ now apply simTimeMs_grows | split; [ exact Hl | ] ].
    destruct (latestLinked_reachable (tickWith s i)
                (reach_tick s i (operated_reachable s Hs)))
      as [[[_ Hm] | (now & Hnow & Hday & Hpos)] _].
    + exfalso.
      destruct (operated_clock s Hs) as [Ht _].
      pose proof (simTimeMs_grows s i Hi) as Hgrow.
      assert (Hnn : (0 <= currentDay (tickWith s i))%Z)
        by (apply currentDay_nonneg; lra).
      lia.
    + exists now. split; [ exact Hnow | congruence ].
Qed.

Lemma latest_snapshot_is_today_witness :
  let s := tickWith Chem.constructor (mkInputs 450 50 16 1 (1 # 2)) in
  let s' := tickWith s (mkInputs 450 50 8000 1 (1 # 2)) in
  simTimeMs s <= simTimeMs s'
  /\ lastSnapshotDay s' = currentDay s'
  /\ exists now, lastSnapshot (history s') = Some now /\ day now = currentDay s'.
Proof.
  apply (latest_snapshot_is_today
           (tickWith Chem.constructor (mkInputs 450 50 16 1 (1 # 2)))
           (mkInputs 450 50 8000 1 (1 # 2))).
  - apply operated_tick; [ apply operated_constructor | ].
    repeat split; vm_compute; discriminate || reflexivity.
  - repeat split; vm_compute; discriminate || reflexivity.
Defined.

(** ** The older [simulation.js] *)

Section LegacyFacts.

Variable Math_sin : Q -> Q.



End LegacyFacts.


(** X25. The older report never faults either. Its return on investment
    is the all-time net profit over 1,000,000, times 100; with at most one
    snapshot the two window figures are the all-time revenue and net profit,
    and with more they are the plain differences between the latest snapshot
    and the window reference, savings left out. *)
Theorem legacy_report (chem : ChemistryEngine) :
  let profit :=
    (totalRevenue chem - (totalVariableCost chem + orZero (totalFixedCost chem)))
    + totalSavings chem in
  exists rep,
    Legacy.updateUI chem = Done rep
    /\ netProfit rep = profit
    /\ roi rep = profit / 1000000 * 100
    /\ ((length (history chem) <= 1)%nat ->
        window rep = {| rev30 := totalRevenue chem; pro30 := profit |})
    /\ ((1 < length (history chem))%nat ->
        exists now prev,
          lastSnapshot (history chem) = Some now
          /\ referenceSnapshot (history chem) (day now - 30) = Done prev
          /\ window rep
             = {| rev30 := revenue now - revenue prev;
                  pro30 := (revenue now - cost now) - (revenue prev - cost prev) |}).
Proof.
  intro profit. unfold Legacy.updateUI. fold profit.
  destruct (1 <? length (history chem))%nat eqn:E.
  - apply Nat.ltb_lt in E.
    destruct (element_in_range (history chem) (length (history chem) - 1))
      as (now & Hnow & Hnth); [ lia | ].
    destruct (referenceSnapshot_total (history chem) (day now - 30))
      as (prev & Hprev); [ lia | ].
    rewrite Hnow. cbn [bind]. rewrite Hprev. cbn [bind].
    eexists. split; [ reflexivity | ]. cbn [netProfit roi window].
    split; [ reflexivity | split; [ reflexivity | split ] ].
    + intro. lia.
    + intros _. exists now, prev.
      split; [ exact Hnth | split; [ exact Hprev | reflexivity ] ].
  - apply Nat.ltb_ge in E. cbn [bind].
    eexists. split; [ reflexivity | ]. cbn [netProfit roi window].
    split; [ reflexivity | split; [ reflexivity | split ] ].
    + intros _. reflexivity.
    + intro. lia.
Qed.
